(** * ConnectHub: posts, likes, comments and profiles

    A shallow embedding of the ConnectHub application:
    - the Supabase schema ([scripts/complete-database-setup.sql] and the
      likes/comments migration): tables, primary keys, the
      [UNIQUE(user_id, post_id)] constraint, foreign keys with
      [ON DELETE CASCADE], row-level-security policies and the
      [handle_new_user] triggers;
    - the React client: [handleUserSession] (hooks/use-auth.ts),
      [fetchPosts] and [handleCreatePost] (app/dashboard/page.tsx),
      [checkIfLiked], [handleLike] and [fetchComments] (the
      [PostInteractions] component);
    - the in-memory REST server [scripts/server.js].

    Asynchronous handlers are modelled by explicit state passing: a handler
    maps the database and the component state before the call to the
    database and the component state once its promise has settled. *)

From Stdlib Require Import ZArith NArith String Ascii List Sorted Permutation Lia.
From stdpp Require Import base decidable option list strings gmap fin_maps.

Local Open Scope Z_scope.

(** ** JavaScript strings *)

Module Js.

(** A JavaScript string is a sequence of UTF-16 code units. *)
Definition jsstring := list N.

(** A string literal of the source, all of whose characters are ASCII. *)
Definition lit (s : string) : jsstring :=
  List.map N_of_ascii (list_ascii_of_string s).

(** ECMAScript [WhiteSpace] and [LineTerminator] code points, the ones
    [String.prototype.trim] strips. *)
Definition is_white_space (c : N) : bool :=
  (  (c =? 0x0009) || (c =? 0x000B) || (c =? 0x000C) || (c =? 0xFEFF)
  || (c =? 0x0020) || (c =? 0x00A0) || (c =? 0x1680)
  || ((0x2000 <=? c) && (c <=? 0x200A))
  || (c =? 0x202F) || (c =? 0x205F) || (c =? 0x3000)
  || (c =? 0x000A) || (c =? 0x000D) || (c =? 0x2028) || (c =? 0x2029))%N.

Fixpoint trimStart (s : jsstring) : jsstring :=
  match s with
  | c :: s' => if is_white_space c then trimStart s' else s
  | [] => []
  end.

Definition trimEnd (s : jsstring) : jsstring := rev (trimStart (rev s)).

(** [s.trim()] *)
Definition trim (s : jsstring) : jsstring := trimEnd (trimStart s).

(** [s.split(sep)] for a separator of one code unit; the result is never
    empty, and the empty string splits into one empty string. *)
Fixpoint split (sep : N) (s : jsstring) : list jsstring :=
  match s with
  | [] => [[]]
  | c :: s' =>
      if (c =? sep)%N then [] :: split sep s'
      else match split sep s' with
           | w :: ws => (c :: w) :: ws
           | [] => [[c]]
           end
  end.

(** Truthiness of a value that is a string or [undefined]: [undefined] and
    the empty string are falsy. *)
Definition truthy (v : option jsstring) : bool :=
  match v with
  | Some (_ :: _) => true
  | _ => false
  end.

(** [a || b] on such values. *)
Definition or (a b : option jsstring) : option jsstring :=
  if truthy a then a else b.

(** [a || "literal"], whose value is always a string. *)
Definition or_else (a : option jsstring) (d : jsstring) : jsstring :=
  match a with
  | Some (c :: s) => c :: s
  | _ => d
  end.

(** Stable sort, as [Array.prototype.sort] with a comparator and as an
    [ORDER BY] on one column: [le x y] says that [x] may stay before [y]. *)
Section Sort.
Context {A : Type} (le : A -> A -> bool).

Fixpoint insert_sorted (x : A) (l : list A) : list A :=
  match l with
  | [] => [x]
  | y :: l' => if le x y then x :: l else y :: insert_sorted x l'
  end.

Fixpoint sort_by (l : list A) : list A :=
  match l with
  | [] => []
  | x :: l' => insert_sorted x (sort_by l')
  end.
End Sort.

End Js.

(** ** The database: schema, constraints and policies *)

Module Db.
Import Js.

Definition uuid := jsstring.

(** [TIMESTAMP WITH TIME ZONE], in microseconds since the epoch. *)
Definition timestamptz := Z.

(** A row of [auth.users] as the application sees it: [session.user] in the
    client, [NEW] in the [handle_new_user] trigger. [raw_user_meta_data] is
    the JSON object given at sign-up ([user_metadata] in the client). *)
Module UserMetadata.
Record t := { name : option jsstring; bio : option jsstring }.
End UserMetadata.

Module AuthUser.
Record t := {
  id : uuid;
  email : option jsstring;
  user_metadata : option UserMetadata.t
}.
End AuthUser.

(** [public.profiles] *)
Module Profile.
Record t := {
  id : uuid;                      (* PRIMARY KEY REFERENCES auth.users(id) ON DELETE CASCADE *)
  name : jsstring;                (* TEXT NOT NULL *)
  email : jsstring;               (* TEXT NOT NULL *)
  bio : option jsstring;          (* TEXT DEFAULT '' *)
  avatar_url : option jsstring;   (* TEXT *)
  created_at : timestamptz;
  updated_at : timestamptz
}.
End Profile.

(** [public.posts] *)
Module Post.
Record t := {
  id : uuid;                      (* PRIMARY KEY *)
  content : jsstring;             (* TEXT NOT NULL *)
  user_id : uuid;                 (* posts_user_id_fkey -> profiles(id) ON DELETE CASCADE *)
  created_at : timestamptz;
  updated_at : timestamptz
}.
End Post.

(** [public.likes] *)
Module Like.
Record t := {
  id : uuid;                      (* PRIMARY KEY *)
  user_id : uuid;                 (* likes_user_id_fkey -> profiles(id) ON DELETE CASCADE *)
  post_id : uuid;                 (* likes_post_id_fkey -> posts(id) ON DELETE CASCADE *)
  created_at : timestamptz
}.
End Like.

(** [public.comments] *)
Module Comment.
Record t := {
  id : uuid;                      (* PRIMARY KEY *)
  content : jsstring;             (* TEXT NOT NULL *)
  user_id : uuid;                 (* comments_user_id_fkey -> profiles(id) ON DELETE CASCADE *)
  post_id : uuid;                 (* comments_post_id_fkey -> posts(id) ON DELETE CASCADE *)
  created_at : timestamptz;
  updated_at : timestamptz
}.
End Comment.

Record Store := {
  auth_users : list AuthUser.t;
  profiles : list Profile.t;
  posts : list Post.t;
  likes : list Like.t;
  comments : list Comment.t
}.

(** The errors the query interface hands back to the client, by their
    [code]. *)
Inductive PostgrestError :=
| unique_violation (constraint : string)        (* 23505, answered with HTTP 409 Conflict *)
| foreign_key_violation (constraint : string)   (* 23503 *)
| not_null_violation (column : string)          (* 23502 *)
| rls_violation (table : string)                (* 42501 *)
| PGRST116.                                     (* the result is not exactly one row *)

Definition result (A : Type) := (PostgrestError + A)%type.

(** What the database fills in for a new row: [gen_random_uuid()] and
    [NOW()]. *)
Record Defaults := { gen_random_uuid : uuid; NOW : timestamptz }.

(** [auth.uid() = owner], the check of every insert, update and delete
    policy; [uid] is [None] for an anonymous session. *)
Definition owns (uid : option uuid) (owner : uuid) : bool :=
  bool_decide (uid = Some owner).

(** *** likes *)

(** The columns of [UNIQUE(user_id, post_id)]. *)
Definition like_key (l : Like.t) : uuid * uuid := (Like.user_id l, Like.post_id l).

(** The invariant [UNIQUE(user_id, post_id)] keeps. *)
Definition unique_likes (st : Store) : Prop :=
  NoDup (List.map like_key (likes st)).

Definition like_row (d : Defaults) (post_id user_id : uuid) : Like.t :=
  {| Like.id := gen_random_uuid d;
     Like.user_id := user_id;
     Like.post_id := post_id;
     Like.created_at := NOW d |}.

(** [INSERT INTO likes (post_id, user_id)]: the insert policy
    [auth.uid() = user_id], then the unique indexes (the primary key and
    [UNIQUE(user_id, post_id)]), then the foreign keys. *)
Definition insert_like (uid : option uuid) (d : Defaults)
    (post_id user_id : uuid) (st : Store) : result Store :=
  if negb (owns uid user_id) then inl (rls_violation "likes")
  else if bool_decide (gen_random_uuid d ∈ List.map Like.id (likes st))
  then inl (unique_violation "likes_pkey")
  else if bool_decide ((user_id, post_id) ∈ List.map like_key (likes st))
  then inl (unique_violation "likes_user_id_post_id_key")
  else if negb (bool_decide (user_id ∈ List.map Profile.id (profiles st)))
  then inl (foreign_key_violation "likes_user_id_fkey")
  else if negb (bool_decide (post_id ∈ List.map Post.id (posts st)))
  then inl (foreign_key_violation "likes_post_id_fkey")
  else inr {| auth_users := auth_users st;
              profiles := profiles st;
              posts := posts st;
              likes := likes st ++ [like_row d post_id user_id];
              comments := comments st |}.

(** What the constraints of [likes] ask of a new row. *)
Definition acceptable_like (d : Defaults) (post_id user_id : uuid) (st : Store) : Prop :=
  (gen_random_uuid d ∉ List.map Like.id (likes st))
  ∧ ((user_id, post_id) ∉ List.map like_key (likes st))
  ∧ user_id ∈ List.map Profile.id (profiles st)
  ∧ post_id ∈ List.map Post.id (posts st).

(** [DELETE FROM likes WHERE post_id = .. AND user_id = ..]: the delete
    policy [auth.uid() = user_id] restricts the rows the statement sees;
    deleting no row is not an error. *)
Definition delete_like (uid : option uuid) (post_id user_id : uuid)
    (st : Store) : Store :=
  {| auth_users := auth_users st;
     profiles := profiles st;
     posts := posts st;
     likes := filter (λ l, ¬ (Like.post_id l = post_id ∧ Like.user_id l = user_id
                               ∧ uid = Some (Like.user_id l))) (likes st);
     comments := comments st |}.

(** [SELECT .. FROM likes WHERE post_id = .. AND user_id = ..]; every
    select policy is [USING (true)]. *)
Definition select_likes (post_id user_id : uuid) (st : Store) : list Like.t :=
  filter (λ l, Like.post_id l = post_id ∧ Like.user_id l = user_id) (likes st).

(** [.maybeSingle()]: no row is [null], one row is that row, more rows are
    an error. *)
Definition maybeSingle {A : Type} (rows : list A) : result (option A) :=
  match rows with
  | [] => inr None
  | [r] => inr (Some r)
  | _ => inl PGRST116
  end.

(** [.single()]: exactly one row, or an error. *)
Definition single {A : Type} (rows : list A) : result A :=
  match rows with
  | [r] => inr r
  | _ => inl PGRST116
  end.

(** The derived aggregates: [SELECT count( * ) .. WHERE post_id = ..]. *)
Definition like_count (st : Store) (post_id : uuid) : Z :=
  Z.of_nat (length (filter (λ l, Like.post_id l = post_id) (likes st))).

Definition comment_count (st : Store) (post_id : uuid) : Z :=
  Z.of_nat (length (filter (λ c, Comment.post_id c = post_id) (comments st))).

(** *** profiles *)

Definition select_profile (id : uuid) (st : Store) : list Profile.t :=
  filter (λ p, Profile.id p = id) (profiles st).

(** The columns an [INSERT INTO profiles (id, name, email, bio)] gives. *)
Record NewProfile := {
  new_id : uuid;
  new_name : jsstring;
  new_email : jsstring;
  new_bio : jsstring
}.

Definition profile_row (d : Defaults) (n : NewProfile) : Profile.t :=
  {| Profile.id := new_id n;
     Profile.name := new_name n;
     Profile.email := new_email n;
     Profile.bio := Some (new_bio n);
     Profile.avatar_url := None;
     Profile.created_at := NOW d;
     Profile.updated_at := NOW d |}.

Definition add_profile (row : Profile.t) (st : Store) : Store :=
  {| auth_users := auth_users st;
     profiles := profiles st ++ [row];
     posts := posts st;
     likes := likes st;
     comments := comments st |}.

(** The constraints of [profiles]: the primary key, and the foreign key to
    [auth.users]. *)
Definition check_profile (n : NewProfile) (st : Store) : option PostgrestError :=
  if bool_decide (new_id n ∈ List.map Profile.id (profiles st))
  then Some (unique_violation "profiles_pkey")
  else if negb (bool_decide (new_id n ∈ List.map AuthUser.id (auth_users st)))
  then Some (foreign_key_violation "profiles_id_fkey")
  else None.

(** The client's insert, under the policy [auth.uid() = id]. *)
Definition insert_profile (uid : option uuid) (d : Defaults) (n : NewProfile)
    (st : Store) : result (Profile.t * Store) :=
  if negb (owns uid (new_id n)) then inl (rls_violation "profiles")
  else match check_profile n st with
       | Some e => inl e
       | None => inr (profile_row d n, add_profile (profile_row d n) st)
       end.

(** [raw_user_meta_data->>'name'] and [->>'bio']: NULL when the object or
    the key is missing. *)
Definition meta_name (u : AuthUser.t) : option jsstring :=
  match AuthUser.user_metadata u with
  | Some m => UserMetadata.name m
  | None => None
  end.

Definition meta_bio (u : AuthUser.t) : option jsstring :=
  match AuthUser.user_metadata u with
  | Some m => UserMetadata.bio m
  | None => None
  end.

(** [COALESCE(a, b)]: the first argument that is not NULL. *)
Definition COALESCE {A : Type} (a b : option A) : option A :=
  match a with
  | Some _ => a
  | None => b
  end.

(** [split_part(s, '@', 1)]: NULL on NULL. *)
Definition split_part_1 (s : option jsstring) : option jsstring :=
  match s with
  | Some s => head (split 64 s)
  | None => None
  end.

(** The values the trigger computes, with a [SECURITY DEFINER] insert that
    no policy restricts; [name] and [email] are [NOT NULL]. *)
Definition trigger_insert (d : Defaults) (id : uuid)
    (name email : option jsstring) (bio : option jsstring) (st : Store)
    : result Store :=
  match name, email with
  | None, _ => inl (not_null_violation "name")
  | Some _, None => inl (not_null_violation "email")
  | Some name, Some email =>
      let n := {| new_id := id; new_name := name; new_email := email;
                  new_bio := default [] bio |} in
      match check_profile n st with
      | Some e => inl e
      | None => inr (add_profile (profile_row d n) st)
      end
  end.

(** [handle_new_user] of scripts/complete-database-setup.sql (and of the
    relationship fix-up script). *)
Definition handle_new_user (d : Defaults) (NEW : AuthUser.t) (st : Store)
    : result Store :=
  trigger_insert d (AuthUser.id NEW)
    (COALESCE (meta_name NEW) (split_part_1 (AuthUser.email NEW)))
    (AuthUser.email NEW)
    (COALESCE (meta_bio NEW) (Some []))
    st.

(** [handle_new_user] of scripts/supabase-setup.sql. *)
Definition handle_new_user_setup (d : Defaults) (NEW : AuthUser.t) (st : Store)
    : result Store :=
  trigger_insert d (AuthUser.id NEW)
    (COALESCE (meta_name NEW) (Some (lit "New User")))
    (AuthUser.email NEW)
    (COALESCE (meta_bio NEW) (Some []))
    st.

(** *** posts *)

Definition find_profile (st : Store) (id : uuid) : option Profile.t :=
  head (select_profile id st).

(** [INSERT INTO posts (content, user_id)]. *)
Definition insert_post (uid : option uuid) (d : Defaults)
    (content : jsstring) (user_id : uuid) (st : Store) : result (Post.t * Store) :=
  let row := {| Post.id := gen_random_uuid d;
                Post.content := content;
                Post.user_id := user_id;
                Post.created_at := NOW d;
                Post.updated_at := NOW d |} in
  if negb (owns uid user_id) then inl (rls_violation "posts")
  else if bool_decide (gen_random_uuid d ∈ List.map Post.id (posts st))
  then inl (unique_violation "posts_pkey")
  else if negb (bool_decide (user_id ∈ List.map Profile.id (profiles st)))
  then inl (foreign_key_violation "posts_user_id_fkey")
  else inr (row,
            {| auth_users := auth_users st;
               profiles := profiles st;
               posts := posts st ++ [row];
               likes := likes st;
               comments := comments st |}).

(** [DELETE FROM posts WHERE id = ..] under the policy
    [auth.uid() = user_id]; [likes_post_id_fkey] and
    [comments_post_id_fkey] are [ON DELETE CASCADE], so the rows that
    reference a deleted post go with it, whoever owns them. *)
Definition deleted_posts (uid : option uuid) (id : uuid) (st : Store) : list uuid :=
  List.map Post.id
    (filter (λ p, Post.id p = id ∧ uid = Some (Post.user_id p)) (posts st)).

Definition delete_post (uid : option uuid) (id : uuid) (st : Store) : Store :=
  let gone := deleted_posts uid id st in
  {| auth_users := auth_users st;
     profiles := profiles st;
     posts := filter (λ p, ¬ (Post.id p = id ∧ uid = Some (Post.user_id p))) (posts st);
     likes := filter (λ l, Like.post_id l ∉ gone) (likes st);
     comments := filter (λ c, Comment.post_id c ∉ gone) (comments st) |}.

(** *** comments *)

Definition comment_row (d : Defaults) (content : jsstring) (post_id user_id : uuid)
    : Comment.t :=
  {| Comment.id := gen_random_uuid d;
     Comment.content := content;
     Comment.user_id := user_id;
     Comment.post_id := post_id;
     Comment.created_at := NOW d;
     Comment.updated_at := NOW d |}.

(** [INSERT INTO comments (content, post_id, user_id)]. *)
Definition insert_comment (uid : option uuid) (d : Defaults)
    (content : jsstring) (post_id user_id : uuid) (st : Store)
    : result (Comment.t * Store) :=
  if negb (owns uid user_id) then inl (rls_violation "comments")
  else if bool_decide (gen_random_uuid d ∈ List.map Comment.id (comments st))
  then inl (unique_violation "comments_pkey")
  else if negb (bool_decide (user_id ∈ List.map Profile.id (profiles st)))
  then inl (foreign_key_violation "comments_user_id_fkey")
  else if negb (bool_decide (post_id ∈ List.map Post.id (posts st)))
  then inl (foreign_key_violation "comments_post_id_fkey")
  else inr (comment_row d content post_id user_id,
            {| auth_users := auth_users st;
               profiles := profiles st;
               posts := posts st;
               likes := likes st;
               comments := comments st ++ [comment_row d content post_id user_id] |}).

(** *** principals *)

(** Deleting a row of [auth.users]: [profiles.id] references it with
    [ON DELETE CASCADE], and so do, one step further, the [user_id] columns
    of posts, likes and comments, and after the posts the [post_id] columns
    of likes and comments. *)
Definition delete_auth_user (id : uuid) (st : Store) : Store :=
  let gone := List.map Post.id (filter (λ p, Post.user_id p = id) (posts st)) in
  {| auth_users := filter (λ u, AuthUser.id u ≠ id) (auth_users st);
     profiles := filter (λ p, Profile.id p ≠ id) (profiles st);
     posts := filter (λ p, Post.user_id p ≠ id) (posts st);
     likes := filter (λ l, Like.user_id l ≠ id ∧ Like.post_id l ∉ gone) (likes st);
     comments := filter (λ c, Comment.user_id c ≠ id ∧ Comment.post_id c ∉ gone)
                   (comments st) |}.

(** *** The statements that change the tables *)

Definition empty : Store :=
  {| auth_users := []; profiles := []; posts := []; likes := []; comments := [] |}.

(** Signing up adds the principal and fires [handle_new_user]; an error of
    the trigger aborts the sign-up. *)
Definition sign_up (d : Defaults) (NEW : AuthUser.t) (st : Store) : result Store :=
  handle_new_user d NEW
    {| auth_users := auth_users st ++ [NEW];
       profiles := profiles st;
       posts := posts st;
       likes := likes st;
       comments := comments st |}.

Inductive step : Store → Store → Prop :=
| step_sign_up d NEW st st' :
    sign_up d NEW st = inr st' → step st st'
| step_insert_profile uid d n st row st' :
    insert_profile uid d n st = inr (row, st') → step st st'
| step_insert_post uid d content user_id st row st' :
    insert_post uid d content user_id st = inr (row, st') → step st st'
| step_insert_like uid d post_id user_id st st' :
    insert_like uid d post_id user_id st = inr st' → step st st'
| step_insert_comment uid d content post_id user_id st row st' :
    insert_comment uid d content post_id user_id st = inr (row, st') → step st st'
| step_delete_like uid post_id user_id st :
    step st (delete_like uid post_id user_id st)
| step_delete_post uid id st :
    step st (delete_post uid id st)
| step_delete_auth_user id st :
    step st (delete_auth_user id st).

(** The stores the application can be in. *)
Inductive reachable : Store → Prop :=
| reachable_empty : reachable empty
| reachable_step st st' : reachable st → step st st' → reachable st'.

(** Every Like and Comment row references a post of the store. *)
Definition references_posts (st : Store) : Prop :=
  (∀ l, l ∈ likes st → Like.post_id l ∈ List.map Post.id (posts st))
  ∧ (∀ c, c ∈ comments st → Comment.post_id c ∈ List.map Post.id (posts st)).

(** The primary keys and the foreign keys to [auth.users] and to
    [profiles]. *)
Record integrity (st : Store) : Prop := {
  profiles_pkey : NoDup (List.map Profile.id (profiles st));
  posts_pkey : NoDup (List.map Post.id (posts st));
  likes_pkey : NoDup (List.map Like.id (likes st));
  comments_pkey : NoDup (List.map Comment.id (comments st));
  profiles_id_fkey :
    ∀ p, p ∈ profiles st → Profile.id p ∈ List.map AuthUser.id (auth_users st);
  posts_user_id_fkey :
    ∀ p, p ∈ posts st → Post.user_id p ∈ List.map Profile.id (profiles st);
  likes_user_id_fkey :
    ∀ l, l ∈ likes st → Like.user_id l ∈ List.map Profile.id (profiles st);
  comments_user_id_fkey :
    ∀ c, c ∈ comments st → Comment.user_id c ∈ List.map Profile.id (profiles st)
}.

(** *** The view [posts_with_counts] *)

(** [SELECT post_id, COUNT( * ) FROM .. GROUP BY post_id], on the column of
    the [post_id]s of a table: one row for each value that occurs. *)
Definition group_by_post_id (post_ids : list uuid) : list (uuid * Z) :=
  List.map (λ k, (k, Z.of_nat (length (filter (λ x, x = k) post_ids))))
    (remove_dups post_ids).

(** [rows LEFT JOIN counts ON key row = counts.post_id]: a row is paired
    with every count row of its key, and with NULL when there is none. *)
Definition left_join {A : Type} (key : A → uuid) (rows : list A)
    (counts : list (uuid * Z)) : list (A * option Z) :=
  List.flat_map
    (λ row, match filter (λ g, g.1 = key row) counts with
            | [] => [(row, None)]
            | matches => List.map (λ g, (row, Some g.2)) matches
            end)
    rows.

Module PostWithCounts.
Record t := { post : Post.t; like_count : Z; comment_count : Z }.
End PostWithCounts.

(** [COALESCE(count, 0)] *)
Definition coalesce_zero (count : option Z) : Z := default 0 count.

Definition posts_with_counts (st : Store) : list PostWithCounts.t :=
  let like_counts := group_by_post_id (List.map Like.post_id (likes st)) in
  let comment_counts := group_by_post_id (List.map Comment.post_id (comments st)) in
  List.map
    (λ r, {| PostWithCounts.post := r.1.1;
             PostWithCounts.like_count := coalesce_zero r.1.2;
             PostWithCounts.comment_count := coalesce_zero r.2 |})
    (left_join (λ r, Post.id r.1) (left_join Post.id (posts st) like_counts)
       comment_counts).

(** [ORDER BY created_at] on a table. *)
Definition order_by_created_at {A : Type} (created_at : A → timestamptz)
    (ascending : bool) (rows : list A) : list A :=
  sort_by (λ x y, if ascending then created_at x <=? created_at y
                  else created_at y <=? created_at x) rows.

End Db.

(** ** The React client *)

Module Client.
Import Js Db.

(** What [toast({ title, description, variant })] shows. [error.message] of
    a database error is kept as the error itself; it is never empty, so the
    [|| "Failed to .."] fall-backs of the handlers are not taken for it. *)
Inductive Description :=
| Literal (s : string)
| ErrorMessage (e : PostgrestError).

Record Toast := {
  title : string;
  description : Description;
  destructive : bool
}.

Definition success (s : string) : Toast :=
  {| title := "Success"; description := Literal s; destructive := false |}.

Definition failure (d : Description) : Toast :=
  {| title := "Error"; description := d; destructive := true |}.

(** The embedded resource [profiles!.._fkey (id, name, email, bio, avatar_url)]. *)
Module ProfileView.
Record t := {
  id : uuid;
  name : jsstring;
  email : jsstring;
  bio : option jsstring;
  avatar_url : option jsstring
}.
End ProfileView.

Definition profile_view (p : Profile.t) : ProfileView.t :=
  {| ProfileView.id := Profile.id p;
     ProfileView.name := Profile.name p;
     ProfileView.email := Profile.email p;
     ProfileView.bio := Profile.bio p;
     ProfileView.avatar_url := Profile.avatar_url p |}.

Definition embed_profile (st : Store) (user_id : uuid) : option ProfileView.t :=
  profile_view <$> find_profile st user_id.

(** [count || 0] *)
Definition count_or_zero (count : option Z) : Z :=
  match count with
  | Some n => if n =? 0 then 0 else n
  | None => 0
  end.

(** *** hooks/use-auth.ts *)

Module UseAuth.
Record State := {
  user : option Profile.t;
  loading : bool;
  toasts : list Toast
}.

Definition notify (t : Toast) (s : State) : State :=
  {| user := user s; loading := loading s; toasts := toasts s ++ [t] |}.

Definition setUser (p : option Profile.t) (s : State) : State :=
  {| user := p; loading := loading s; toasts := toasts s |}.

(** [authUser.user_metadata?.name] *)
Definition metadata_name (authUser : AuthUser.t) : option jsstring :=
  m ← AuthUser.user_metadata authUser; UserMetadata.name m.

(** [authUser.user_metadata?.bio] *)
Definition metadata_bio (authUser : AuthUser.t) : option jsstring :=
  m ← AuthUser.user_metadata authUser; UserMetadata.bio m.

(** [authUser.email?.split("@")[0]] *)
Definition email_local_part (authUser : AuthUser.t) : option jsstring :=
  e ← AuthUser.email authUser; head (split 64 e).

Definition newProfile (authUser : AuthUser.t) : NewProfile :=
  {| new_id := AuthUser.id authUser;
     new_name := or_else (or (metadata_name authUser) (email_local_part authUser))
                   (lit "User");
     new_email := or_else (AuthUser.email authUser) [];
     new_bio := or_else (metadata_bio authUser) [] |}.

(** The client is signed in as [authUser] when this runs: it is called
    with [session.user]. *)
Definition handleUserSession (d : Defaults) (authUser : AuthUser.t)
    (db : Store) (s : State) : Store * State :=
  match single (select_profile (AuthUser.id authUser) db) with
  | inl PGRST116 =>
      match insert_profile (Some (AuthUser.id authUser)) d (newProfile authUser) db with
      | inl _ =>
          (db, notify (failure (Literal "Failed to create profile. Please try again.")) s)
      | inr (createdProfile, db') => (db', setUser (Some createdProfile) s)
      end
  | inl _ =>
      (db, notify (failure (Literal "Failed to load profile. Please refresh the page.")) s)
  | inr profile => (db, setUser (Some profile) s)
  end.
End UseAuth.

(** *** app/dashboard/page.tsx *)

Module Dashboard.
Module Post.
Record t := {
  id : uuid;
  content : jsstring;
  created_at : timestamptz;
  profiles : option ProfileView.t;
  like_count : Z;
  comment_count : Z
}.
End Post.

Record State := {
  posts : list Post.t;
  newPost : jsstring;
  isLoading : bool;
  isLoadingPosts : bool;
  showCreatePost : bool;
  toasts : list Toast
}.

(** A selected row [{ id, content, created_at, profiles }] with the two
    counts spread over it. *)
Definition with_counts (db : Store) (row : Db.Post.t) (likeCount commentCount : Z)
    : Post.t :=
  {| Post.id := Db.Post.id row;
     Post.content := Db.Post.content row;
     Post.created_at := Db.Post.created_at row;
     Post.profiles := embed_profile db (Db.Post.user_id row);
     Post.like_count := likeCount;
     Post.comment_count := commentCount |}.

Definition fetchPosts (db : Store) (s : State) : State :=
  let data := order_by_created_at Db.Post.created_at false (Db.posts db) in
  let postsWithCounts :=
    List.map (λ post,
      let likeCount := Some (like_count db (Db.Post.id post)) in
      let commentCount := Some (comment_count db (Db.Post.id post)) in
      with_counts db post (count_or_zero likeCount) (count_or_zero commentCount))
      data in
  {| posts := postsWithCounts;
     newPost := newPost s;
     isLoading := isLoading s;
     isLoadingPosts := false;
     showCreatePost := showCreatePost s;
     toasts := toasts s |}.

(** [user] is the profile [useAuth] resolved; the client is signed in as
    that user. *)
Definition handleCreatePost (user : option Profile.t) (d : Defaults)
    (db : Store) (s : State) : Store * State :=
  match trim (newPost s), user with
  | [], _ | _, None => (db, s)
  | _ :: _, Some user =>
      match insert_post (Some (Profile.id user)) d (newPost s) (Profile.id user) db with
      | inl error =>
          (db, {| posts := posts s;
                  newPost := newPost s;
                  isLoading := false;
                  isLoadingPosts := isLoadingPosts s;
                  showCreatePost := showCreatePost s;
                  toasts := toasts s ++ [failure (ErrorMessage error)] |})
      | inr (data, db') =>
          let newPostWithCounts := with_counts db' data 0 0 in
          (db', {| posts := newPostWithCounts :: posts s;
                   newPost := [];
                   isLoading := false;
                   isLoadingPosts := isLoadingPosts s;
                   showCreatePost := false;
                   toasts := toasts s ++ [success "Post created successfully!"] |})
      end
  end.
End Dashboard.

(** *** components/post-interactions.tsx *)

Module PostInteractions.
Module Comment.
Record t := {
  id : uuid;
  content : jsstring;
  created_at : timestamptz;
  profiles : option ProfileView.t
}.
End Comment.

Record Props := {
  postId : uuid;
  currentUser : ProfileView.t
}.

Record State := {
  likeCount : Z;
  commentCount : Z;
  isLiked : bool;
  comments : list Comment.t;
  newComment : jsstring;
  isLoadingLike : bool;
  isLoadingComment : bool;
  isLoadingComments : bool;
  showComments : bool;
  toasts : list Toast
}.

Definition setIsLiked (b : bool) (s : State) : State :=
  {| likeCount := likeCount s; commentCount := commentCount s; isLiked := b;
     comments := comments s; newComment := newComment s;
     isLoadingLike := isLoadingLike s; isLoadingComment := isLoadingComment s;
     isLoadingComments := isLoadingComments s; showComments := showComments s;
     toasts := toasts s |}.

Definition setLikeCount (f : Z → Z) (s : State) : State :=
  {| likeCount := f (likeCount s); commentCount := commentCount s;
     isLiked := isLiked s;
     comments := comments s; newComment := newComment s;
     isLoadingLike := isLoadingLike s; isLoadingComment := isLoadingComment s;
     isLoadingComments := isLoadingComments s; showComments := showComments s;
     toasts := toasts s |}.

Definition setIsLoadingLike (b : bool) (s : State) : State :=
  {| likeCount := likeCount s; commentCount := commentCount s;
     isLiked := isLiked s;
     comments := comments s; newComment := newComment s;
     isLoadingLike := b; isLoadingComment := isLoadingComment s;
     isLoadingComments := isLoadingComments s; showComments := showComments s;
     toasts := toasts s |}.

Definition setComments (l : list Comment.t) (s : State) : State :=
  {| likeCount := likeCount s; commentCount := commentCount s;
     isLiked := isLiked s;
     comments := l; newComment := newComment s;
     isLoadingLike := isLoadingLike s; isLoadingComment := isLoadingComment s;
     isLoadingComments := isLoadingComments s; showComments := showComments s;
     toasts := toasts s |}.

Definition setIsLoadingComments (b : bool) (s : State) : State :=
  {| likeCount := likeCount s; commentCount := commentCount s;
     isLiked := isLiked s;
     comments := comments s; newComment := newComment s;
     isLoadingLike := isLoadingLike s; isLoadingComment := isLoadingComment s;
     isLoadingComments := b; showComments := showComments s;
     toasts := toasts s |}.

Definition toast (t : Toast) (s : State) : State :=
  {| likeCount := likeCount s; commentCount := commentCount s;
     isLiked := isLiked s;
     comments := comments s; newComment := newComment s;
     isLoadingLike := isLoadingLike s; isLoadingComment := isLoadingComment s;
     isLoadingComments := isLoadingComments s; showComments := showComments s;
     toasts := toasts s ++ [t] |}.

(** The client is signed in as [currentUser]. *)
Definition session (p : Props) : option uuid :=
  Some (ProfileView.id (currentUser p)).

Definition checkIfLiked (p : Props) (db : Store) (s : State) : State :=
  match maybeSingle (select_likes (postId p) (ProfileView.id (currentUser p)) db) with
  | inl error => s
  | inr data => setIsLiked (bool_decide (is_Some data)) s
  end.

Definition handleLike (p : Props) (d : Defaults) (db : Store) (s : State)
    : Store * State :=
  if isLoadingLike s then (db, s)
  else if isLiked s then
    (* Unlike *)
    let db' := delete_like (session p) (postId p) (ProfileView.id (currentUser p)) db in
    (db', setIsLoadingLike false
            (toast (success "Post unliked!")
               (setLikeCount (λ prev, Z.max 0 (prev - 1)) (setIsLiked false s))))
  else
    (* Like *)
    match insert_like (session p) d (postId p) (ProfileView.id (currentUser p)) db with
    | inl error =>
        (db, setIsLoadingLike false (toast (failure (ErrorMessage error)) s))
    | inr db' =>
        (db', setIsLoadingLike false
                (toast (success "Post liked!")
                   (setLikeCount (λ prev, prev + 1) (setIsLiked true s))))
    end.

(** A selected row [{ id, content, created_at, profiles }]. *)
Definition comment_view (db : Store) (c : Db.Comment.t) : Comment.t :=
  {| Comment.id := Db.Comment.id c;
     Comment.content := Db.Comment.content c;
     Comment.created_at := Db.Comment.created_at c;
     Comment.profiles := embed_profile db (Db.Comment.user_id c) |}.

(** [.from("comments").select(..).eq("post_id", postId)
     .order("created_at", { ascending: true })] *)
Definition select_comments (post_id : uuid) (db : Store) : list Comment.t :=
  List.map (comment_view db)
    (order_by_created_at Db.Comment.created_at true
       (filter (λ c, Db.Comment.post_id c = post_id) (Db.comments db))).

Definition fetchComments (p : Props) (db : Store) (s : State) : State :=
  if isLoadingComments s then s
  else setIsLoadingComments false (setComments (select_comments (postId p) db) s).

Definition setIsLoadingComment (b : bool) (s : State) : State :=
  {| likeCount := likeCount s; commentCount := commentCount s;
     isLiked := isLiked s;
     comments := comments s; newComment := newComment s;
     isLoadingLike := isLoadingLike s; isLoadingComment := b;
     isLoadingComments := isLoadingComments s; showComments := showComments s;
     toasts := toasts s |}.

(** [setComments], [setCommentCount] and [setNewComment("")] after a
    comment was stored. *)
Definition commented (data : Comment.t) (s : State) : State :=
  {| likeCount := likeCount s; commentCount := commentCount s + 1;
     isLiked := isLiked s;
     comments := comments s ++ [data]; newComment := [];
     isLoadingLike := isLoadingLike s; isLoadingComment := isLoadingComment s;
     isLoadingComments := isLoadingComments s; showComments := showComments s;
     toasts := toasts s |}.

Definition handleComment (p : Props) (d : Defaults) (db : Store) (s : State)
    : Store * State :=
  match trim (newComment s), isLoadingComment s with
  | [], _ | _, true => (db, s)
  | _ :: _, false =>
      match insert_comment (session p) d (trim (newComment s)) (postId p)
              (ProfileView.id (currentUser p)) db with
      | inl error =>
          (db, setIsLoadingComment false
                 (toast (failure (Literal "Failed to add comment. Please try again.")) s))
      | inr (row, db') =>
          (db', setIsLoadingComment false
                  (toast (success "Comment added successfully!")
                     (commented (comment_view db' row) s)))
      end
  end.
End PostInteractions.

(** *** app/profile/[id]/page.tsx *)

Module ProfilePage.
(** The embedded resource [profiles (id, name, email, bio, avatar_url,
    created_at)]. *)
Module Author.
Record t := {
  id : uuid;
  name : jsstring;
  email : jsstring;
  bio : option jsstring;
  avatar_url : option jsstring;
  created_at : timestamptz
}.
End Author.

(** A selected row [{ *, profiles }]. *)
Module Post.
Record t := {
  id : uuid;
  content : jsstring;
  user_id : uuid;
  created_at : timestamptz;
  updated_at : timestamptz;
  profiles : option Author.t
}.
End Post.

(** [redirected] records a [router.push("/")]. *)
Record State := {
  user : option Profile.t;
  posts : list Post.t;
  currentUser : option Profile.t;
  isLoading : bool;
  isLoadingPosts : bool;
  redirected : bool
}.

Definition author (p : Profile.t) : Author.t :=
  {| Author.id := Profile.id p;
     Author.name := Profile.name p;
     Author.email := Profile.email p;
     Author.bio := Profile.bio p;
     Author.avatar_url := Profile.avatar_url p;
     Author.created_at := Profile.created_at p |}.

Definition post_view (db : Store) (row : Db.Post.t) : Post.t :=
  {| Post.id := Db.Post.id row;
     Post.content := Db.Post.content row;
     Post.user_id := Db.Post.user_id row;
     Post.created_at := Db.Post.created_at row;
     Post.updated_at := Db.Post.updated_at row;
     Post.profiles := author <$> find_profile db (Db.Post.user_id row) |}.

Definition redirect (s : State) : State :=
  {| user := user s; posts := posts s; currentUser := currentUser s;
     isLoading := isLoading s; isLoadingPosts := isLoadingPosts s;
     redirected := true |}.

(** [session] is what [supabase.auth.getSession()] gives: an error, no
    session, or the id of the signed-in principal. *)
Definition checkAuth (session : option (option uuid)) (db : Store) (s : State) : State :=
  match session with
  | None | Some None => redirect s
  | Some (Some id) =>
      match single (select_profile id db) with
      | inl profileError => redirect s
      | inr profile =>
          {| user := user s; posts := posts s; currentUser := Some profile;
             isLoading := isLoading s; isLoadingPosts := isLoadingPosts s;
             redirected := redirected s |}
      end
  end.

(** [id] is the uuid [params.id], the id in the address of the page,
    denotes. *)
Definition fetchUserProfile (id : uuid) (db : Store) (s : State) : State :=
  match single (select_profile id db) with
  | inl error =>
      {| user := user s; posts := posts s; currentUser := currentUser s;
         isLoading := false; isLoadingPosts := isLoadingPosts s;
         redirected := redirected s |}
  | inr data =>
      {| user := Some data; posts := posts s; currentUser := currentUser s;
         isLoading := false; isLoadingPosts := isLoadingPosts s;
         redirected := redirected s |}
  end.

(** [params_id] is [params.id] as the database reads it in
    [.eq("user_id", params.id)]: a uuid, or [None] for text that is not one,
    for which the query is an error and [posts] stays as it is. *)
Definition fetchUserPosts (params_id : option uuid) (db : Store) (s : State) : State :=
  match params_id with
  | None =>
      {| user := user s; posts := posts s; currentUser := currentUser s;
         isLoading := isLoading s; isLoadingPosts := false;
         redirected := redirected s |}
  | Some id =>
      let data :=
        List.map (post_view db)
          (order_by_created_at Db.Post.created_at false
             (filter (λ p, Db.Post.user_id p = id) (Db.posts db))) in
      {| user := user s; posts := data; currentUser := currentUser s;
         isLoading := isLoading s; isLoadingPosts := false;
         redirected := redirected s |}
  end.
End ProfilePage.

End Client.

(** ** The REST server, scripts/server.js *)

Module Server.
Import Js.

(** The values the handlers move around: strings, and [undefined] for a
    field a request body does not have. *)
Inductive jsval :=
| undefined
| JString (s : jsstring).

#[global] Instance jsval_eq_dec : EqDecision jsval.
Proof. solve_decision. Defined.

(** [v || ""] *)
Definition or_empty (v : jsval) : jsval :=
  match v with
  | JString (c :: s) => JString (c :: s)
  | _ => JString []
  end.

(** A user object [{ id, name, email, password, bio, createdAt }]: a finite
    map from property names to values. *)
Abbreviation object := (gmap string jsval).

(** [o.k] *)
Definition get (o : object) (k : string) : jsval := default undefined (o !! k).


Module Post.
Record t := {
  id : jsstring;
  content : jsval;
  authorId : jsval;
  createdAt : jsstring
}.
End Post.

Module Author.
Record t := { id : jsval; name : jsval; email : jsval; bio : jsval }.
End Author.

Module PostWithAuthor.
Record t := { post : Post.t; author : Author.t }.
End PostWithAuthor.

Record State := {
  users : list object;
  posts : list Post.t
}.

(** What [res.status(..).json(..)] sends. *)
Inductive Body :=
| Message (message : string)
| TokenAndUser (token : jsstring) (user : object)
| User (user : object)
| OnePost (p : PostWithAuthor.t)
| Posts (l : list PostWithAuthor.t).

Record Response := { status : Z; body : Body }.

Definition json (status : Z) (b : Body) : Response :=
  {| status := status; body := b |}.

(** What a request reads from outside the process: [uuidv4()],
    [new Date().toISOString()], the salt [bcrypt.hash] draws, and the clock
    in seconds when [jwt.sign] stamps the token with its issue time. *)
Record Env := { uuidv4 : jsstring; now : jsstring; salt : jsstring; iat : Z }.

Module RegisterBody.
Record t := { name : jsval; email : jsval; password : jsval; bio : jsval }.
End RegisterBody.

Module LoginBody.
Record t := { email : jsval; password : jsval }.
End LoginBody.

Section Handlers.
(** The libraries: bcryptjs, jsonwebtoken (with [JWT_SECRET] fixed;
    [jwt.sign] puts the issue time into the token beside the payload) and
    the number [new Date(s)] converts to. *)
Variable bcrypt_hash : jsstring → jsstring → jsstring.   (* salt, password *)
Variable bcrypt_compare : jsstring → jsstring → bool.    (* password, hash *)
Variable jwt_sign : Z → jsval → jsstring.                (* iat, { userId } *)
Variable jwt_verify : jsstring → option jsval.           (* the payload's userId *)
Variable Date_value : jsstring → Z.

Definition getUserById (st : State) (id : jsval) : option object :=
  List.find (λ user, bool_decide (get user "id" = id)) (users st).

Definition find_by_email (st : State) (email : jsval) : option object :=
  List.find (λ user, bool_decide (get user "email" = email)) (users st).

(** [const { password: _, ...userWithoutPassword } = user] *)
Definition userWithoutPassword (user : object) : object :=
  delete "password" user.

Definition server_error : Response := json 500 (Message "Server error").

Definition register (e : Env) (req : RegisterBody.t) (st : State)
    : State * Response :=
  match find_by_email st (RegisterBody.email req) with
  | Some existingUser => (st, json 400 (Message "User already exists"))
  | None =>
      match RegisterBody.password req with
      | undefined => (st, server_error)          (* bcrypt.hash throws *)
      | JString password =>
          let hashedPassword := bcrypt_hash (salt e) password in
          let user : object :=
            <["id" := JString (uuidv4 e)]>
            (<["name" := RegisterBody.name req]>
            (<["email" := RegisterBody.email req]>
            (<["password" := JString hashedPassword]>
            (<["bio" := or_empty (RegisterBody.bio req)]>
            (<["createdAt" := JString (now e)]> ∅))))) in
          let token := jwt_sign (iat e) (get user "id") in
          ({| users := users st ++ [user]; posts := posts st |},
           json 201 (TokenAndUser token (userWithoutPassword user)))
      end
  end.

Definition login (e : Env) (req : LoginBody.t) (st : State) : Response :=
  match find_by_email st (LoginBody.email req) with
  | None => json 400 (Message "Invalid credentials")
  | Some user =>
      match LoginBody.password req, get user "password" with
      | JString password, JString hash =>
          if bcrypt_compare password hash
          then json 200 (TokenAndUser (jwt_sign (iat e) (get user "id"))
                           (userWithoutPassword user))
          else json 400 (Message "Invalid credentials")
      | _, _ => server_error                      (* bcrypt.compare throws *)
      end
  end.

(** [authenticateToken]: the answer it sends itself, or the [userId] it
    leaves in [req.user]. *)
Definition authenticateToken (authorization : option jsstring)
    : Response + jsval :=
  let token :=
    match authorization with
    | Some (c :: h) => nth_error (split 32 (c :: h)) 1
    | other => other
    end in
  match token with
  | Some (c :: t) =>
      match jwt_verify (c :: t) with
      | Some userId => inr userId
      | None => inl (json 403 (Message "Invalid token"))
      end
  | _ => inl (json 401 (Message "Access token required"))
  end.

(** [GET /api/users/:id] *)
Definition get_user (authorization : option jsstring) (id : jsstring)
    (st : State) : Response :=
  match authenticateToken authorization with
  | inl res => res
  | inr _ =>
      match getUserById st (JString id) with
      | None => json 404 (Message "User not found")
      | Some user => json 200 (User (userWithoutPassword user))
      end
  end.

(** [{ ...post, author: { id, name, email, bio } }]; reading a property
    of a missing author throws. *)
Definition with_author (st : State) (post : Post.t) : option PostWithAuthor.t :=
  author ← getUserById st (Post.authorId post);
  Some {| PostWithAuthor.post := post;
          PostWithAuthor.author :=
            {| Author.id := get author "id";
               Author.name := get author "name";
               Author.email := get author "email";
               Author.bio := get author "bio" |} |}.

Definition getPostsWithAuthors (st : State) (postList : list Post.t)
    : option (list PostWithAuthor.t) :=
  joined ← mapM (with_author st) postList;
  Some (sort_by
          (λ a b, Date_value (Post.createdAt (PostWithAuthor.post b))
                  - Date_value (Post.createdAt (PostWithAuthor.post a)) <=? 0)
          joined).

(** [GET /api/posts] *)
Definition get_posts (authorization : option jsstring) (st : State) : Response :=
  match authenticateToken authorization with
  | inl res => res
  | inr _ =>
      match getPostsWithAuthors st (posts st) with
      | Some postsWithAuthors => json 200 (Posts postsWithAuthors)
      | None => server_error
      end
  end.

(** [POST /api/posts]: the post is pushed before its author is looked
    up. *)
Definition create_post (e : Env) (authorization : option jsstring)
    (content : jsval) (st : State) : State * Response :=
  match authenticateToken authorization with
  | inl res => (st, res)
  | inr userId =>
      let post := {| Post.id := uuidv4 e;
                     Post.content := content;
                     Post.authorId := userId;
                     Post.createdAt := now e |} in
      let st' := {| users := users st; posts := posts st ++ [post] |} in
      match with_author st' post with
      | Some postWithAuthor => (st', json 201 (OnePost postWithAuthor))
      | None => (st', server_error)
      end
  end.

(** The user object [register] builds for a string password. *)
Definition new_user (e : Env) (req : RegisterBody.t) (password : jsstring) : object :=
  <["id" := JString (uuidv4 e)]>
  (<["name" := RegisterBody.name req]>
  (<["email" := RegisterBody.email req]>
  (<["password" := JString (bcrypt_hash (salt e) password)]>
  (<["bio" := or_empty (RegisterBody.bio req)]>
  (<["createdAt" := JString (now e)]> ∅))))).

(** The post [POST /api/posts] builds. *)
Definition new_post (e : Env) (content userId : jsval) : Post.t :=
  {| Post.id := uuidv4 e; Post.content := content;
     Post.authorId := userId; Post.createdAt := now e |}.

(** [GET /api/users/:id/posts] *)
Definition get_user_posts (authorization : option jsstring) (id : jsstring)
    (st : State) : Response :=
  match authenticateToken authorization with
  | inl res => res
  | inr _ =>
      let userPosts :=
        filter (λ post, Post.authorId post = JString id) (posts st) in
      match getPostsWithAuthors st userPosts with
      | Some postsWithAuthors => json 200 (Posts postsWithAuthors)
      | None => server_error
      end
  end.
End Handlers.

(** The user objects a response body carries. *)
Definition body_users (b : Body) : list object :=
  match b with
  | TokenAndUser _ user => [user]
  | User user => [user]
  | _ => []
  end.

(** A body exposes a password when a user object in it has a [password]
    property. *)
Definition exposes_password (b : Body) : Prop :=
  ∃ user, user ∈ body_users b ∧ is_Some (user !! "password").

(** The posts a response body lists. *)
Definition body_posts (b : Body) : list PostWithAuthor.t :=
  match b with
  | OnePost p => [p]
  | Posts l => l
  | _ => []
  end.

Definition issued_token (b : Body) : option jsstring :=
  match b with
  | TokenAndUser token _ => Some token
  | _ => None
  end.

End Server.

(** ** A concrete scenario

    Alice and Bob are signed up and have profiles; Alice has one post. The
    instances below evaluate the definitions above on it. *)

Module Scenario.
Import Js Db.

Definition alice_auth : AuthUser.t :=
  {| AuthUser.id := lit "a11ce";
     AuthUser.email := Some (lit "alice@example.com");
     AuthUser.user_metadata :=
       Some {| UserMetadata.name := Some (lit "Alice"); UserMetadata.bio := None |} |}.

Definition bob_auth : AuthUser.t :=
  {| AuthUser.id := lit "b0b";
     AuthUser.email := Some (lit "bob@example.com");
     AuthUser.user_metadata := None |}.

(** A principal without an email address and without sign-up metadata. *)
Definition carol_auth : AuthUser.t :=
  {| AuthUser.id := lit "ca401";
     AuthUser.email := None;
     AuthUser.user_metadata := None |}.

Definition alice : Profile.t :=
  {| Profile.id := lit "a11ce"; Profile.name := lit "Alice";
     Profile.email := lit "alice@example.com"; Profile.bio := Some [];
     Profile.avatar_url := None;
     Profile.created_at := 1000; Profile.updated_at := 1000 |}.

Definition bob : Profile.t :=
  {| Profile.id := lit "b0b"; Profile.name := lit "bob";
     Profile.email := lit "bob@example.com"; Profile.bio := Some [];
     Profile.avatar_url := None;
     Profile.created_at := 2000; Profile.updated_at := 2000 |}.

Definition hello : Post.t :=
  {| Post.id := lit "p1"; Post.content := lit "Hello world";
     Post.user_id := lit "a11ce";
     Post.created_at := 3000; Post.updated_at := 3000 |}.

Definition store0 : Store :=
  {| auth_users := [alice_auth; bob_auth; carol_auth];
     profiles := [alice; bob];
     posts := [hello];
     likes := [];
     comments := [] |}.

Definition at_ (id : string) (t : timestamptz) : Defaults :=
  {| gen_random_uuid := lit id; NOW := t |}.

(** Bob has liked Alice's post. *)
Definition store1 : Store :=
  {| auth_users := auth_users store0;
     profiles := profiles store0;
     posts := posts store0;
     likes := [like_row (at_ "l1" 4000) (lit "p1") (lit "b0b")];
     comments := [] |}.

(** .. and has written two comments on it, the later one stored first. *)
Definition nice (id : string) (t : timestamptz) : Comment.t :=
  {| Comment.id := lit id; Comment.content := lit "Nice!";
     Comment.user_id := lit "b0b"; Comment.post_id := lit "p1";
     Comment.created_at := t; Comment.updated_at := t |}.

Definition store2 : Store :=
  {| auth_users := auth_users store0;
     profiles := profiles store0;
     posts := posts store0;
     likes := likes store1;
     comments := [nice "c2" 6000; nice "c1" 5000] |}.

(** The store after Alice and Bob signed up, Alice posted, and Bob liked
    the post and commented on it twice. *)
Definition store3 : Store :=
  {| auth_users := [alice_auth; bob_auth];
     profiles := [alice; bob];
     posts := [hello];
     likes := likes store1;
     comments := [nice "c1" 5000; nice "c2" 6000] |}.

Definition bob_view : Client.ProfileView.t := Client.profile_view bob.

Definition bob_on_hello : Client.PostInteractions.Props :=
  {| Client.PostInteractions.postId := lit "p1";
     Client.PostInteractions.currentUser := bob_view |}.

(** The component as it mounts, showing [n] likes. *)
Definition mounted (n : Z) (liked : bool) : Client.PostInteractions.State :=
  {| Client.PostInteractions.likeCount := n;
     Client.PostInteractions.commentCount := 0;
     Client.PostInteractions.isLiked := liked;
     Client.PostInteractions.comments := [];
     Client.PostInteractions.newComment := [];
     Client.PostInteractions.isLoadingLike := false;
     Client.PostInteractions.isLoadingComment := false;
     Client.PostInteractions.isLoadingComments := false;
     Client.PostInteractions.showComments := false;
     Client.PostInteractions.toasts := [] |}.

(** The component while a fetch of the comments is running. *)
Definition fetching : Client.PostInteractions.State :=
  Client.PostInteractions.setIsLoadingComments true (mounted 0 false).

(** The dashboard with [text] typed into the new-post box. *)
Definition typed (text : jsstring) : Client.Dashboard.State :=
  {| Client.Dashboard.posts := [];
     Client.Dashboard.newPost := text;
     Client.Dashboard.isLoading := false;
     Client.Dashboard.isLoadingPosts := false;
     Client.Dashboard.showCreatePost := true;
     Client.Dashboard.toasts := [] |}.

Definition signed_out : Client.UseAuth.State :=
  {| Client.UseAuth.user := None;
     Client.UseAuth.loading := true;
     Client.UseAuth.toasts := [] |}.

(** The server as it starts, with its demo user and demo post. *)
Definition demo_user : Server.object :=
  <["id" := Server.JString (lit "1")]>
  (<["name" := Server.JString (lit "Demo User")]>
  (<["email" := Server.JString (lit "demo@example.com")]>
  (<["password" := Server.JString (lit "$2a$10$92IXUNpkjO0rOQ5byMi.Ye4oKoEa3Ro9llC/.og/at2.uheWG/igi")]>
  (<["bio" := Server.JString (lit "Full Stack Developer passionate about creating amazing user experiences.")]>
  (<["createdAt" := Server.JString (lit "2024-01-01T00:00:00.000Z")]> ∅))))).

Definition demo_post : Server.Post.t :=
  {| Server.Post.id := lit "1";
     Server.Post.content := Server.JString (lit "Welcome to ConnectHub!");
     Server.Post.authorId := Server.JString (lit "1");
     Server.Post.createdAt := lit "2024-01-01T00:00:00.000Z" |}.

Definition server0 : Server.State :=
  {| Server.users := [demo_user]; Server.posts := [demo_post] |}.

Definition env0 : Server.Env :=
  {| Server.uuidv4 := lit "2";
     Server.now := lit "2024-01-02T00:00:00.000Z";
     Server.salt := lit "salt";
     Server.iat := 65 |}.

(** A request one second later. *)
Definition env1 : Server.Env :=
  {| Server.uuidv4 := lit "3";
     Server.now := lit "2024-01-02T00:00:01.000Z";
     Server.salt := lit "pepper";
     Server.iat := 66 |}.

(** Stand-ins for the libraries: a hash that tags the password with its
    salt, a token that is the user id, a dot and the issue time as one code
    unit, and a clock that reads the length of the string. *)
Definition hash (salt password : jsstring) : jsstring := salt ++ lit "$" ++ password.

Definition compare (password hash : jsstring) : bool :=
  bool_decide (drop (length hash - length password) hash = password).

Definition sign (iat : Z) (userId : Server.jsval) : jsstring :=
  match userId with
  | Server.JString s => lit "token-" ++ s ++ [46%N; Z.to_N iat]
  | Server.undefined => lit "token-" ++ [46%N; Z.to_N iat]
  end.

Definition verify (token : jsstring) : option Server.jsval :=
  if bool_decide (take 6 token = lit "token-")
  then Server.JString <$> head (split 46 (drop 6 token)) else None.

Definition clock (iso : jsstring) : Z := Z.of_nat (length iso).

(** The server after a post under a token whose user it does not know. *)
Definition orphan : Server.Post.t :=
  Server.new_post env0 (Server.JString (lit "Hi")) (Server.JString (lit "7")).

Definition server_orphan : Server.State :=
  {| Server.users := [demo_user]; Server.posts := [demo_post; orphan] |}.

End Scenario.

(** ** The words of the specification *)

Module Spec.
Import Js Db.

(** "Joined with its author profile": the embedded [profiles] object of a
    row owned by [user_id] is the view of a profile with that id, and is
    [null] only when there is none. *)
Definition joined_with (st : Store) (user_id : uuid)
    (v : option Client.ProfileView.t) : Prop :=
  match v with
  | Some view =>
      ∃ a, a ∈ profiles st ∧ Profile.id a = user_id
           ∧ Client.ProfileView.id view = Profile.id a
           ∧ Client.ProfileView.name view = Profile.name a
           ∧ Client.ProfileView.email view = Profile.email a
           ∧ Client.ProfileView.bio view = Profile.bio a
           ∧ Client.ProfileView.avatar_url view = Profile.avatar_url a
  | None => user_id ∉ List.map Profile.id (profiles st)
  end.

(** The same for the profile page, whose embedded object has the creation
    time of the profile too. *)
Definition joined_with_author (st : Store) (user_id : uuid)
    (v : option Client.ProfilePage.Author.t) : Prop :=
  match v with
  | Some author =>
      ∃ a, a ∈ profiles st ∧ Profile.id a = user_id
           ∧ Client.ProfilePage.Author.id author = Profile.id a
           ∧ Client.ProfilePage.Author.name author = Profile.name a
           ∧ Client.ProfilePage.Author.email author = Profile.email a
           ∧ Client.ProfilePage.Author.bio author = Profile.bio a
           ∧ Client.ProfilePage.Author.avatar_url author = Profile.avatar_url a
           ∧ Client.ProfilePage.Author.created_at author = Profile.created_at a
  | None => user_id ∉ List.map Profile.id (profiles st)
  end.

(** The user object a post of the REST server is joined with: the first
    user whose id is the post's [authorId], by its id, name, email and
    bio. *)
Definition joined_with_user (st : Server.State) (view : Server.PostWithAuthor.t)
    : Prop :=
  ∃ user,
    List.find (λ u, bool_decide (Server.get u "id"
                                 = Server.Post.authorId (Server.PostWithAuthor.post view)))
      (Server.users st) = Some user
    ∧ Server.Author.id (Server.PostWithAuthor.author view) = Server.get user "id"
    ∧ Server.Author.name (Server.PostWithAuthor.author view) = Server.get user "name"
    ∧ Server.Author.email (Server.PostWithAuthor.author view) = Server.get user "email"
    ∧ Server.Author.bio (Server.PostWithAuthor.author view) = Server.get user "bio".

(** "The local part (before '@')" of an email address. *)
Fixpoint local_part (email : jsstring) : jsstring :=
  match email with
  | [] => []
  | c :: rest => if (c =? 64)%N then [] else c :: local_part rest
  end.

(** "Name defaulting to the signup-provided name, else the local part of
    the email, else a fixed placeholder", a name or a local part counting
    as given when it is not empty. *)
Definition default_name (signup_name email : option jsstring)
    (placeholder : jsstring) : jsstring :=
  match signup_name with
  | Some (c :: name) => c :: name
  | _ =>
      match email with
      | Some e =>
          match local_part e with
          | c :: l => c :: l
          | [] => placeholder
          end
      | None => placeholder
      end
  end.

(** "Bio defaults to empty string." *)
Definition default_bio (signup_bio : option jsstring) : jsstring :=
  match signup_bio with
  | Some bio => bio
  | None => []
  end.

(** "Rejects with a validation error": the handler reports an error to the
    user. *)
Definition reports_error (before after : list Client.Toast) : Prop :=
  ∃ t, after = before ++ [t] ∧ Client.destructive t = true.

End Spec.

(** * Properties *)

Import Js Db.
Module UA := Client.UseAuth.
Module Dash := Client.Dashboard.
Module PI := Client.PostInteractions.

(** ** Sorting *)

Section SortFacts.
Context {A : Type} (le : A → A → bool).
Hypothesis le_total : ∀ x y, le x y = true ∨ le y x = true.

Lemma insert_sorted_perm (x : A) (l : list A) :
  insert_sorted le x l ≡ₚ x :: l.
Proof.
  induction l as [|y l IH]; simpl; [done|].
  destruct (le x y); [done|].
  rewrite IH. apply perm_swap.
Qed.

Lemma sort_by_perm (l : list A) : sort_by le l ≡ₚ l.
Proof.
  induction l as [|x l IH]; simpl; [done|].
  rewrite insert_sorted_perm. by rewrite IH.
Qed.

Lemma insert_sorted_HdRel (a x : A) (l : list A) :
  le a x = true → HdRel (λ u v, le u v = true) a l →
  HdRel (λ u v, le u v = true) a (insert_sorted le x l).
Proof.
  intros Hax Hl. destruct l as [|y l]; simpl.
  - by constructor.
  - destruct (le x y); constructor; [done|].
    by inversion Hl.
Qed.

Lemma insert_sorted_Sorted (x : A) (l : list A) :
  Sorted (λ u v, le u v = true) l →
  Sorted (λ u v, le u v = true) (insert_sorted le x l).
Proof.
  induction 1 as [|y l Hs IH Hhd]; simpl.
  - repeat constructor.
  - destruct (le x y) eqn:Hxy.
    + constructor; [by constructor|by constructor].
    + constructor; [done|].
      apply insert_sorted_HdRel; [|done].
      destruct (le_total x y) as [H|H]; congruence.
Qed.

Lemma sort_by_Sorted (l : list A) : Sorted (λ u v, le u v = true) (sort_by le l).
Proof.
  induction l as [|x l IH]; simpl; [constructor|].
  by apply insert_sorted_Sorted.
Qed.
End SortFacts.

Lemma order_by_created_at_perm {A : Type} (key : A → timestamptz) (asc : bool)
    (rows : list A) :
  order_by_created_at key asc rows ≡ₚ rows.
Proof. apply sort_by_perm. Qed.

(** An ascending [ORDER BY]: every row is no later than all rows after it. *)
Lemma order_by_ascending {A : Type} (key : A → timestamptz) (rows : list A) :
  StronglySorted (λ x y, key x ≤ key y) (order_by_created_at key true rows).
Proof.
  apply Sorted_StronglySorted.
  - intros x y z ??. lia.
  - eapply Sorted_ind with (R := λ u v, (key u <=? key v) = true)
      (P := Sorted (λ x y, key x ≤ key y)).
    + constructor.
    + intros a l _ IH Hhd. constructor; [done|].
      destruct Hhd; constructor. lia.
    + apply (sort_by_Sorted (λ x y, key x <=? key y)). intros x y. lia.
Qed.

(** A descending [ORDER BY]: every row is no earlier than all rows after it. *)
Lemma order_by_descending {A : Type} (key : A → timestamptz) (rows : list A) :
  StronglySorted (λ x y, key y ≤ key x) (order_by_created_at key false rows).
Proof.
  apply Sorted_StronglySorted.
  - intros x y z ??. lia.
  - eapply Sorted_ind with (R := λ u v, (key v <=? key u) = true)
      (P := Sorted (λ x y, key y ≤ key x)).
    + constructor.
    + intros a l _ IH Hhd. constructor; [done|].
      destruct Hhd; constructor. lia.
    + apply (sort_by_Sorted (λ x y, key y <=? key x)). intros x y. lia.
Qed.

Lemma StronglySorted_map {A B : Type} (f : A → B) (R : B → B → Prop) (l : list A) :
  StronglySorted (λ x y, R (f x) (f y)) l → StronglySorted R (List.map f l).
Proof.
  induction 1 as [|x l Hs IH Hall]; simpl; constructor; [done|].
  apply Forall_forall. intros y Hy. apply list_elem_of_In, in_map_iff in Hy.
  destruct Hy as (z & <- & Hz). rewrite Forall_forall in Hall.
  apply Hall. by apply list_elem_of_In.
Qed.

(** ** Likes *)

Lemma insert_like_accepted uid d P U st st' :
  insert_like uid d P U st = inr st' →
  uid = Some U
  ∧ acceptable_like d P U st
  ∧ likes st' = (likes st ++ [like_row d P U])
  ∧ profiles st' = profiles st ∧ posts st' = posts st
  ∧ comments st' = comments st.
Proof.
  unfold insert_like, owns, acceptable_like.
  repeat (case_bool_decide; simpl; try discriminate).
  intros [= <-]. simpl. done.
Qed.

Lemma insert_like_accepts uid d P U st :
  uid = Some U → acceptable_like d P U st →
  ∃ st', insert_like uid d P U st = inr st'.
Proof.
  intros ? (? & ? & ? & ?). unfold insert_like, owns.
  repeat (case_bool_decide; simpl; try done).
  eauto.
Qed.

Lemma insert_like_duplicate uid d P U st :
  uid = Some U →
  (U, P) ∈ List.map like_key (likes st) →
  (∃ c, insert_like uid d P U st = inl (unique_violation c))
  ∧ (gen_random_uuid d ∉ List.map Like.id (likes st) →
     insert_like uid d P U st = inl (unique_violation "likes_user_id_post_id_key")).
Proof.
  intros -> Hin. unfold insert_like, owns.
  rewrite bool_decide_eq_true_2 by done. simpl.
  case_bool_decide; [split; eauto; done|].
  rewrite bool_decide_eq_true_2 by done. eauto.
Qed.

Lemma select_likes_length (P U : uuid) (l : list Like.t) :
  length (filter (λ r, Like.post_id r = P ∧ Like.user_id r = U) l)
  = length (filter (λ k, k = (U, P)) (List.map like_key l)).
Proof.
  induction l as [|r l IH]; [done|]. simpl.
  rewrite !filter_cons. unfold like_key at 1.
  destruct (decide (Like.post_id r = P ∧ Like.user_id r = U)) as [[? ?]|Hn];
    destruct (decide ((Like.user_id r, Like.post_id r) = (U, P))) as [He|He];
    simpl; try congruence.
  exfalso. apply Hn. inversion He. done.
Qed.

Lemma filter_absent {A : Type} `{EqDecision A} (k : A) (l : list A) :
  k ∉ l → filter (λ x, x = k) l = [].
Proof.
  induction l as [|x l IH]; [done|].
  rewrite not_elem_of_cons. intros [Hne Hl].
  rewrite filter_cons. destruct (decide (x = k)); [congruence|]. auto.
Qed.

Lemma NoDup_filter_eq_length {A : Type} `{EqDecision A} (k : A) (l : list A) :
  NoDup l → (length (filter (λ x, x = k) l) ≤ 1)%nat.
Proof.
  induction 1 as [|x l Hx Hnd IH]; [simpl; lia|].
  rewrite filter_cons. destruct (decide (x = k)) as [->|]; [|done].
  rewrite filter_absent; [simpl; lia|done].
Qed.

(** An accepted insert keeps [(user_id, post_id)] unique. *)
Lemma insert_like_unique uid d P U st st' :
  unique_likes st → insert_like uid d P U st = inr st' → unique_likes st'.
Proof.
  unfold unique_likes. intros Hnd Hins.
  apply insert_like_accepted in Hins as (_ & (_ & Hfresh & _) & -> & _).
  rewrite map_app. simpl. apply NoDup_app. split; [done|]. split.
  - intros k Hk Hin. apply list_elem_of_singleton in Hin. subst. done.
  - apply NoDup_singleton.
Qed.

Lemma delete_like_unique uid P U st :
  unique_likes st → unique_likes (delete_like uid P U st).
Proof.
  unfold unique_likes, delete_like. simpl.
  generalize (likes st). intros l Hnd.
  induction l as [|r l IH]; [done|].
  simpl in Hnd. apply NoDup_cons in Hnd as [Hr Hnd].
  rewrite filter_cons. case_decide; [|by auto].
  simpl. apply NoDup_cons. split; [|by auto].
  intros Hin. apply Hr.
  apply list_elem_of_In, in_map_iff in Hin as (r' & Hk & Hr').
  apply list_elem_of_In, in_map_iff. exists r'. split; [done|].
  apply list_elem_of_In. apply list_elem_of_In in Hr'.
  by apply list_elem_of_filter in Hr' as [_ ?].
Qed.

(** C1. Once user U has liked post P, a second insert of a Like row for
    (U, P) fails with a unique violation (the conflict error), which is the
    one of [UNIQUE(user_id, post_id)] unless the generated id collides too;
    the table still holds exactly one row for (U, P); and [handleLike],
    which makes that insert when its [isLiked] is stale, leaves the table,
    [like_count] of P and the displayed count as they were and shows the
    error. *)
Theorem like_twice_conflict (uid : option uuid) (d d2 : Defaults) (U P : uuid)
    (st st' : Store) :
  insert_like uid d P U st = inr st' →
  (∃ c, insert_like uid d2 P U st' = inl (unique_violation c))
  ∧ (gen_random_uuid d2 ∉ List.map Like.id (likes st') →
     insert_like uid d2 P U st' = inl (unique_violation "likes_user_id_post_id_key"))
  ∧ length (select_likes P U st') = 1%nat
  ∧ ∀ (p : PI.Props) (s : PI.State),
      PI.postId p = P → Client.ProfileView.id (PI.currentUser p) = U →
      PI.isLoadingLike s = false → PI.isLiked s = false →
      ∃ c, PI.handleLike p d2 st' s
           = (st', PI.setIsLoadingLike false
                     (PI.toast (Client.failure (Client.ErrorMessage (unique_violation c))) s))
           ∧ like_count (fst (PI.handleLike p d2 st' s)) P = like_count st' P
           ∧ PI.likeCount (snd (PI.handleLike p d2 st' s)) = PI.likeCount s.
Proof.
  intros Hins.
  apply insert_like_accepted in Hins as (Huid & (_ & Hfresh & _) & Hlikes & _).
  assert (Hin : (U, P) ∈ List.map like_key (likes st')).
  { rewrite Hlikes, map_app. apply elem_of_app. right. simpl. apply list_elem_of_singleton.
    done. }
  destruct (insert_like_duplicate uid d2 P U st' Huid Hin) as [[c Hc] Hkey].
  split; [by eauto|]. split; [done|]. split.
  - unfold select_likes. rewrite select_likes_length, Hlikes, map_app, filter_app.
    rewrite (filter_absent _ _ Hfresh). simpl. rewrite filter_cons.
    unfold like_key. simpl. by rewrite decide_True.
  - intros p s <- <- Hload Hliked. exists c.
    unfold PI.handleLike, PI.session. rewrite Hload, Hliked.
    rewrite Huid in Hc. rewrite Hc. done.
Qed.

Lemma like_twice_conflict_witness :
  insert_like (Some (lit "b0b")) (Scenario.at_ "l1" 4000) (lit "p1") (lit "b0b")
    Scenario.store0 = inr Scenario.store1
  ∧ insert_like (Some (lit "b0b")) (Scenario.at_ "l2" 4500) (lit "p1") (lit "b0b")
      Scenario.store1 = inl (unique_violation "likes_user_id_post_id_key")
  ∧ length (select_likes (lit "p1") (lit "b0b") Scenario.store1) = 1%nat.
Proof.
  assert (H : insert_like (Some (lit "b0b")) (Scenario.at_ "l1" 4000) (lit "p1")
                (lit "b0b") Scenario.store0 = inr Scenario.store1)
    by (vm_compute; reflexivity).
  split; [exact H|].
  destruct (like_twice_conflict _ _ (Scenario.at_ "l2" 4500) _ _ _ _ H)
    as (_ & Hkey & Hone & _).
  split; [|exact Hone].
  apply Hkey. vm_compute. intros Hin.
  apply list_elem_of_singleton in Hin. discriminate Hin.
Defined.

(** The rows a delete leaves: none of the pair, all of the others. *)
Lemma delete_like_own (P U : uuid) (st : Store) :
  select_likes P U (delete_like (Some U) P U st) = []
  ∧ ∀ l, l ∈ likes st → like_key l ≠ (U, P) →
         l ∈ likes (delete_like (Some U) P U st).
Proof.
  unfold select_likes, delete_like. simpl. split.
  - induction (likes st) as [|r l IH]; [done|].
    rewrite filter_cons. case_decide as Hkeep; [|done].
    rewrite filter_cons. case_decide as Hsel; [|done].
    exfalso. apply Hkeep. destruct Hsel as [? ?]. repeat split; congruence.
  - intros l Hl Hne. apply list_elem_of_filter. split; [|done].
    intros (HP & HU & _). apply Hne. unfold like_key. congruence.
Qed.

Lemma select_likes_spec (P U : uuid) (st : Store) (l : Like.t) :
  l ∈ select_likes P U st ↔ l ∈ likes st ∧ Like.user_id l = U ∧ Like.post_id l = P.
Proof. unfold select_likes. rewrite list_elem_of_filter. tauto. Qed.

Lemma select_likes_at_most_one (P U : uuid) (st : Store) :
  unique_likes st → (length (select_likes P U st) ≤ 1)%nat.
Proof.
  intros Hnd. unfold select_likes. rewrite select_likes_length.
  by apply NoDup_filter_eq_length.
Qed.

(** C8. In a table that satisfies [UNIQUE(user_id, post_id)], [checkIfLiked]
    sets [isLiked] to true exactly when a Like row of the user for the post
    exists; when there is none it sets [isLiked] to false and reports no
    error. *)
Theorem checkIfLiked_presence (p : PI.Props) (db : Store) (s : PI.State) :
  unique_likes db →
  (PI.isLiked (PI.checkIfLiked p db s) = true
   ↔ ∃ l, l ∈ likes db ∧ Like.user_id l = Client.ProfileView.id (PI.currentUser p)
          ∧ Like.post_id l = PI.postId p)
  ∧ PI.checkIfLiked p db s
    = PI.setIsLiked
        (bool_decide (select_likes (PI.postId p)
                        (Client.ProfileView.id (PI.currentUser p)) db ≠ [])) s.
Proof.
  intros Hnd.
  pose proof (select_likes_at_most_one (PI.postId p)
                (Client.ProfileView.id (PI.currentUser p)) db Hnd) as Hlen.
  pose proof (select_likes_spec (PI.postId p)
                (Client.ProfileView.id (PI.currentUser p)) db) as Hspec.
  unfold PI.checkIfLiked.
  destruct (select_likes _ _ db) as [|r [|r' rows]]; simpl in *.
  - split; [|done]. split; [done|].
    intros (l & Hl). apply Hspec in Hl. by apply elem_of_nil in Hl.
  - split; [|done]. split; [|done].
    intros _. exists r. apply Hspec. apply list_elem_of_here.
  - lia.
Qed.

Lemma checkIfLiked_presence_witness :
  unique_likes Scenario.store1
  ∧ PI.isLiked (PI.checkIfLiked Scenario.bob_on_hello Scenario.store1
                  (Scenario.mounted 1 false)) = true
  ∧ PI.isLiked (PI.checkIfLiked Scenario.bob_on_hello Scenario.store0
                  (Scenario.mounted 0 true)) = false.
Proof.
  assert (H1 : unique_likes Scenario.store1).
  { unfold unique_likes. vm_compute. apply NoDup_singleton. }
  assert (H0 : unique_likes Scenario.store0).
  { unfold unique_likes. vm_compute. apply NoDup_nil_2. }
  split; [exact H1|]. split.
  - apply (checkIfLiked_presence Scenario.bob_on_hello Scenario.store1 _ H1).
    exists (like_row (Scenario.at_ "l1" 4000) (lit "p1") (lit "b0b")).
    split; [apply list_elem_of_here|]. split; reflexivity.
  - destruct (checkIfLiked_presence Scenario.bob_on_hello Scenario.store0
                (Scenario.mounted 0 true) H0) as [_ ->].
    reflexivity.
Defined.

(** The displayed count is wrong as soon as the insert is refused: Bob has
    liked the post, the component still shows [isLiked = false] and one
    like; [handleLike] adds no row and the count stays 1, not 2. *)
Lemma handleLike_duplicate_counterexample :
  PI.isLiked (Scenario.mounted 1 false) = false
  ∧ PI.likeCount (snd (PI.handleLike Scenario.bob_on_hello (Scenario.at_ "l2" 4500)
                         Scenario.store1 (Scenario.mounted 1 false))) = 1
  ∧ PI.likeCount (snd (PI.handleLike Scenario.bob_on_hello (Scenario.at_ "l2" 4500)
                         Scenario.store1 (Scenario.mounted 1 false))) ≠ 1 + 1
  ∧ likes (fst (PI.handleLike Scenario.bob_on_hello (Scenario.at_ "l2" 4500)
                  Scenario.store1 (Scenario.mounted 1 false)))
    = likes Scenario.store1.
Proof. vm_compute. repeat split; discriminate. Qed.

(** C4, amended. While no like request is in flight and the displayed count
    n is not negative: with [isLiked] true, [handleLike] deletes the user's
    Like rows for the post, keeps all others, and shows max(0, n - 1); with
    [isLiked] false it appends one Like row and shows n + 1 when the insert
    is accepted (fresh id, no row for the pair yet, profile and post
    present), and otherwise leaves the table alone and still shows n. The
    displayed count is never negative. *)
Theorem handleLike_toggle (p : PI.Props) (d : Defaults) (db : Store) (s : PI.State) :
  PI.isLoadingLike s = false →
  0 ≤ PI.likeCount s →
  let U := Client.ProfileView.id (PI.currentUser p) in
  let P := PI.postId p in
  let db' := fst (PI.handleLike p d db s) in
  let s' := snd (PI.handleLike p d db s) in
  0 ≤ PI.likeCount s'
  ∧ (PI.isLiked s = true →
       select_likes P U db' = []
       ∧ (∀ l, l ∈ likes db → like_key l ≠ (U, P) → l ∈ likes db')
       ∧ PI.likeCount s' = Z.max 0 (PI.likeCount s - 1)
       ∧ PI.isLiked s' = false)
  ∧ (PI.isLiked s = false → acceptable_like d P U db →
       likes db' = (likes db ++ [like_row d P U])
       ∧ PI.likeCount s' = PI.likeCount s + 1
       ∧ PI.isLiked s' = true)
  ∧ (PI.isLiked s = false → ¬ acceptable_like d P U db →
       db' = db
       ∧ PI.likeCount s' = PI.likeCount s
       ∧ PI.isLiked s' = false).
Proof.
  intros Hload Hn U P db' s'.
  subst db' s'. unfold PI.handleLike. rewrite Hload.
  destruct (PI.isLiked s) eqn:Hliked; simpl.
  - split; [lia|]. split; [|split; intros; discriminate].
    intros _. unfold PI.session. fold U P.
    destruct (delete_like_own P U db) as [Hnone Hkeep]. done.
  - destruct (insert_like (PI.session p) d (PI.postId p)
                (Client.ProfileView.id (PI.currentUser p)) db) as [e|db''] eqn:Hins;
      simpl.
    + split; [lia|]. split; [discriminate|]. split; [|done].
      intros _ Hacc.
      destruct (insert_like_accepts (PI.session p) d P U db) as [st' Hst'];
        [done..|].
      subst U P. congruence.
    + apply insert_like_accepted in Hins as (_ & Hacc & Hlikes & _).
      split; [lia|]. split; [discriminate|]. split; [done|].
      intros _ Hno. by destruct Hno.
Qed.

Lemma handleLike_toggle_witness :
  PI.isLoadingLike (Scenario.mounted 0 true) = false
  ∧ 0 ≤ PI.likeCount (Scenario.mounted 0 true)
  ∧ PI.likeCount (snd (PI.handleLike Scenario.bob_on_hello (Scenario.at_ "l1" 4000)
                         Scenario.store0 (Scenario.mounted 0 true))) = 0
  ∧ PI.likeCount (snd (PI.handleLike Scenario.bob_on_hello (Scenario.at_ "l1" 4000)
                         Scenario.store0 (Scenario.mounted 0 false))) = 1.
Proof.
  split; [reflexivity|]. split; [exact (Z.le_refl 0)|]. split.
  - destruct (handleLike_toggle Scenario.bob_on_hello (Scenario.at_ "l1" 4000)
                Scenario.store0 (Scenario.mounted 0 true) eq_refl (Z.le_refl 0))
      as (_ & Hunlike & _).
    destruct (Hunlike eq_refl) as (_ & _ & -> & _). reflexivity.
  - destruct (handleLike_toggle Scenario.bob_on_hello (Scenario.at_ "l1" 4000)
                Scenario.store0 (Scenario.mounted 0 false) eq_refl (Z.le_refl 0))
      as (_ & _ & Hlike & _).
    apply Hlike; [reflexivity|].
    vm_compute. repeat split.
    + apply not_elem_of_nil.
    + apply not_elem_of_nil.
    + apply list_elem_of_further, list_elem_of_here.
    + apply list_elem_of_here.
Defined.

(** ** Deleting a post *)

Lemma filter_none {A : Type} (Q : A → Prop) `{∀ x, Decision (Q x)} (l : list A) :
  (∀ x, x ∈ l → ¬ Q x) → filter Q l = [].
Proof.
  induction l as [|x l IH]; [done|]. intros Hall.
  rewrite filter_cons. destruct (decide (Q x)) as [HQ|_].
  - exfalso. eapply Hall; [apply list_elem_of_here|done].
  - apply IH. intros y Hy. apply Hall. by apply list_elem_of_further.
Qed.

Lemma elem_of_map_1 {A B : Type} (f : A → B) (l : list A) (x : A) :
  x ∈ l → f x ∈ List.map f l.
Proof. intros Hx. apply list_elem_of_In, in_map, list_elem_of_In, Hx. Qed.

Lemma elem_of_map_inv {A B : Type} (f : A → B) (l : list A) (y : B) :
  y ∈ List.map f l → ∃ x, x ∈ l ∧ f x = y.
Proof.
  intros Hy. apply list_elem_of_In, in_map_iff in Hy as (x & Hfx & Hx).
  exists x. split; [by apply list_elem_of_In|done].
Qed.

(** The owner's delete removes the post. *)
Lemma delete_post_by_owner (uid : option uuid) (P : uuid) (st : Store) :
  (∀ p, p ∈ posts st → Post.id p = P → uid = Some (Post.user_id p)) →
  P ∉ List.map Post.id (posts (delete_post uid P st)).
Proof.
  intros Hown Hin. apply elem_of_map_inv in Hin as (p & Hp & Hid).
  simpl in Hp. apply list_elem_of_filter in Hp as [Hkeep Hp].
  apply Hkeep. split; [done|]. by apply Hown.
Qed.

(** Rows of other posts stay. *)
Lemma delete_post_others (uid : option uuid) (P : uuid) (st : Store) :
  (∀ l, l ∈ likes st → Like.post_id l ≠ P → l ∈ likes (delete_post uid P st))
  ∧ (∀ c, c ∈ comments st → Comment.post_id c ≠ P →
          c ∈ comments (delete_post uid P st)).
Proof.
  assert (Hgone : ∀ q, q ∈ deleted_posts uid P st → q = P).
  { intros q Hq. apply elem_of_map_inv in Hq as (p & Hp & <-).
    by apply list_elem_of_filter in Hp as [[? _] _]. }
  split; intros r Hr Hne; simpl; apply list_elem_of_filter; (split; [|done]);
    intros Hin; apply Hgone in Hin; done.
Qed.

(** C5. When the post with id P is deleted (it was there before the delete
    and is not there after it), no Like row and no Comment row references P
    any more: [like_count] and [comment_count] of P are zero. *)
Theorem delete_post_cascade (uid : option uuid) (P : uuid) (st : Store) :
  P ∈ List.map Post.id (posts st) →
  P ∉ List.map Post.id (posts (delete_post uid P st)) →
  (∀ l, l ∈ likes (delete_post uid P st) → Like.post_id l ≠ P)
  ∧ (∀ c, c ∈ comments (delete_post uid P st) → Comment.post_id c ≠ P)
  ∧ like_count (delete_post uid P st) P = 0
  ∧ comment_count (delete_post uid P st) P = 0.
Proof.
  intros Hbefore Hafter.
  assert (Hgone : P ∈ deleted_posts uid P st).
  { apply elem_of_map_inv in Hbefore as (p & Hp & Hid).
    subst P.
    destruct (decide (Post.id p = Post.id p ∧ uid = Some (Post.user_id p)))
      as [Hdel|Hkeep].
    - apply (elem_of_map_1 Post.id). by apply list_elem_of_filter.
    - exfalso. apply Hafter. apply (elem_of_map_1 Post.id).
      simpl. by apply list_elem_of_filter. }
  assert (Hlikes : ∀ l, l ∈ likes (delete_post uid P st) → Like.post_id l ≠ P).
  { intros l Hl. simpl in Hl. apply list_elem_of_filter in Hl as [Hnot _].
    intros Heq. apply Hnot. by rewrite Heq. }
  assert (Hcomments : ∀ c, c ∈ comments (delete_post uid P st) → Comment.post_id c ≠ P).
  { intros c Hc. simpl in Hc. apply list_elem_of_filter in Hc as [Hnot _].
    intros Heq. apply Hnot. by rewrite Heq. }
  split; [done|]. split; [done|].
  unfold like_count, comment_count.
  rewrite (filter_none _ _ Hlikes), (filter_none _ _ Hcomments). done.
Qed.

Lemma delete_post_cascade_witness :
  lit "p1" ∈ List.map Post.id (posts Scenario.store2)
  ∧ like_count Scenario.store2 (lit "p1") = 1
  ∧ comment_count Scenario.store2 (lit "p1") = 2
  ∧ like_count (delete_post (Some (lit "a11ce")) (lit "p1") Scenario.store2) (lit "p1") = 0
  ∧ comment_count (delete_post (Some (lit "a11ce")) (lit "p1") Scenario.store2) (lit "p1") = 0.
Proof.
  assert (Hin : lit "p1" ∈ List.map Post.id (posts Scenario.store2))
    by (vm_compute; apply list_elem_of_here).
  assert (Hout : lit "p1" ∉ List.map Post.id
                   (posts (delete_post (Some (lit "a11ce")) (lit "p1") Scenario.store2)))
    by (vm_compute; apply not_elem_of_nil).
  split; [exact Hin|]. split; [reflexivity|]. split; [reflexivity|].
  destruct (delete_post_cascade _ _ _ Hin Hout) as (_ & _ & Hl & Hc).
  split; [exact Hl|exact Hc].
Defined.

(** ** Reading the feed and the comments *)

Lemma find_profile_spec (st : Store) (id : uuid) :
  match find_profile st id with
  | Some a => a ∈ profiles st ∧ Profile.id a = id
  | None => id ∉ List.map Profile.id (profiles st)
  end.
Proof.
  unfold find_profile, select_profile.
  destruct (filter _ (profiles st)) as [|a rest] eqn:Hf; simpl.
  - intros Hin. apply elem_of_map_inv in Hin as (a & Ha & Hid).
    assert (Hmem : a ∈ filter (λ p, Profile.id p = id) (profiles st))
      by (by apply list_elem_of_filter).
    rewrite Hf in Hmem. by apply elem_of_nil in Hmem.
  - assert (Hmem : a ∈ filter (λ p, Profile.id p = id) (profiles st))
      by (rewrite Hf; apply list_elem_of_here).
    apply list_elem_of_filter in Hmem as [? ?]. done.
Qed.

Lemma embed_profile_joined (st : Store) (user_id : uuid) :
  Spec.joined_with st user_id (Client.embed_profile st user_id).
Proof.
  unfold Client.embed_profile. pose proof (find_profile_spec st user_id) as H.
  destruct (find_profile st user_id) as [a|]; simpl; [|done].
  exists a. tauto.
Qed.

Lemma count_or_zero_Some (n : Z) : Client.count_or_zero (Some n) = n.
Proof. simpl. destruct (Z.eqb_spec n 0); congruence. Qed.

Lemma Forall2_map_diag {A B : Type} (f : A → B) (R : B → A → Prop) (l : list A) :
  (∀ x, x ∈ l → R (f x) x) → Forall2 R (List.map f l) l.
Proof.
  induction l as [|x l IH]; intros H; simpl; constructor.
  - apply H, list_elem_of_here.
  - apply IH. intros y Hy. by apply H, list_elem_of_further.
Qed.

(** A fetch that is already running stops the next one: Bob's two comments
    on the post are in the store, yet [fetchComments] called while
    [isLoadingComments] is set lists none. *)
Lemma fetchComments_in_flight_counterexample :
  PI.isLoadingComments Scenario.fetching = true
  ∧ length (filter (λ c, Comment.post_id c = PI.postId Scenario.bob_on_hello)
              (comments Scenario.store2)) = 2%nat
  ∧ PI.comments (PI.fetchComments Scenario.bob_on_hello Scenario.store2
                   Scenario.fetching) = [].
Proof. vm_compute. repeat split. Qed.

(** C7, amended. Unless a fetch is already running, [fetchComments] puts
    into [comments] exactly the comments of the store whose [post_id] is
    the post's: its entries are, one for one, a rearrangement of those
    rows, each with the id, content and creation time of its row and the
    profile of the row's author, and they are ordered oldest first. While a
    fetch is running it changes nothing. *)
Theorem fetchComments_oldest_first (p : PI.Props) (db : Store) (s : PI.State) :
  (PI.isLoadingComments s = false →
   (∃ rows,
      rows ≡ₚ filter (λ c, Comment.post_id c = PI.postId p) (comments db)
      ∧ Forall2 (λ v c, PI.Comment.id v = Comment.id c
                        ∧ PI.Comment.content v = Comment.content c
                        ∧ PI.Comment.created_at v = Comment.created_at c
                        ∧ Spec.joined_with db (Comment.user_id c) (PI.Comment.profiles v))
          (PI.comments (PI.fetchComments p db s)) rows)
   ∧ StronglySorted (λ a b, PI.Comment.created_at a ≤ PI.Comment.created_at b)
       (PI.comments (PI.fetchComments p db s)))
  ∧ (PI.isLoadingComments s = true → PI.fetchComments p db s = s).
Proof.
  unfold PI.fetchComments. split; intros Hload; rewrite Hload; [|done].
  simpl. unfold PI.select_comments. split.
  - eexists. split; [apply (order_by_created_at_perm Comment.created_at true)|].
    apply Forall2_map_diag. intros c _. simpl. repeat split.
    apply embed_profile_joined.
  - apply StronglySorted_map. simpl. apply order_by_ascending.
Qed.

Lemma fetchComments_oldest_first_witness :
  PI.isLoadingComments (Scenario.mounted 0 false) = false
  ∧ List.map PI.Comment.id
      (PI.comments (PI.fetchComments Scenario.bob_on_hello Scenario.store2
                      (Scenario.mounted 0 false)))
    = [lit "c1"; lit "c2"]
  ∧ StronglySorted (λ a b, PI.Comment.created_at a ≤ PI.Comment.created_at b)
      (PI.comments (PI.fetchComments Scenario.bob_on_hello Scenario.store2
                      (Scenario.mounted 0 false))).
Proof.
  split; [reflexivity|]. split; [reflexivity|].
  destruct (fetchComments_oldest_first Scenario.bob_on_hello Scenario.store2
              (Scenario.mounted 0 false)) as [Hidle _].
  apply (Hidle eq_refl).
Defined.

(** ** Resolving the profile of a principal *)

Lemma split_head_local_part (e : jsstring) :
  head (split 64 e) = Some (Spec.local_part e).
Proof.
  induction e as [|c e IH]; [done|]. simpl.
  destruct (c =? 64)%N; [done|].
  destruct (split 64 e) as [|w ws]; [discriminate|].
  simpl in *. congruence.
Qed.

Lemma newProfile_name (authUser : AuthUser.t) (placeholder : jsstring) :
  or_else (or (UA.metadata_name authUser) (UA.email_local_part authUser)) placeholder
  = Spec.default_name (meta_name authUser) (AuthUser.email authUser) placeholder.
Proof.
  unfold UA.metadata_name, UA.email_local_part, meta_name, Spec.default_name, or.
  destruct (AuthUser.user_metadata authUser) as [[[[|c n]|] b]|]; simpl; try done;
    destruct (AuthUser.email authUser) as [e|]; simpl; try done;
    rewrite split_head_local_part; simpl; by destruct (Spec.local_part e).
Qed.

Lemma newProfile_bio (authUser : AuthUser.t) :
  new_bio (UA.newProfile authUser) = Spec.default_bio (meta_bio authUser).
Proof.
  unfold UA.newProfile, UA.metadata_bio, meta_bio, Spec.default_bio. simpl.
  by destruct (AuthUser.user_metadata authUser) as [[n [[|c b]|]]|].
Qed.

(** A principal with neither a sign-up name nor an email address gets the
    name "User", not "New User". *)
Lemma handleUserSession_placeholder_counterexample :
  select_profile (AuthUser.id Scenario.carol_auth) Scenario.store0 = []
  ∧ (∃ created,
       UA.user (snd (UA.handleUserSession (Scenario.at_ "" 9000) Scenario.carol_auth
                       Scenario.store0 Scenario.signed_out)) = Some created
       ∧ Profile.name created = lit "User"
       ∧ Profile.name created
         ≠ Spec.default_name (meta_name Scenario.carol_auth)
             (AuthUser.email Scenario.carol_auth) (lit "New User")).
Proof.
  split; [reflexivity|]. eexists. split; [vm_compute; reflexivity|].
  split; [reflexivity|]. vm_compute. discriminate.
Qed.

(** C3, amended. For an authenticated principal without a profile,
    [handleUserSession] inserts one and makes it the current user. Its name
    is the sign-up name when that is given and not empty, else the part of
    the email before the first '@' when that is not empty, else the
    placeholder "User"; its bio is the sign-up bio, the empty string when
    none is given. *)
Theorem handleUserSession_creates_profile (d : Defaults) (authUser : AuthUser.t)
    (db : Store) (s : UA.State) :
  AuthUser.id authUser ∈ List.map AuthUser.id (auth_users db) →
  AuthUser.id authUser ∉ List.map Profile.id (profiles db) →
  ∃ created,
    UA.handleUserSession d authUser db s
    = (add_profile created db, UA.setUser (Some created) s)
    ∧ Profile.id created = AuthUser.id authUser
    ∧ Profile.name created
      = Spec.default_name (meta_name authUser) (AuthUser.email authUser) (lit "User")
    ∧ Profile.bio created = Some (Spec.default_bio (meta_bio authUser)).
Proof.
  intros Hauth Hnone.
  exists (profile_row d (UA.newProfile authUser)).
  unfold UA.handleUserSession.
  pose proof (find_profile_spec db (AuthUser.id authUser)) as Hfind.
  unfold find_profile in Hfind.
  destruct (select_profile (AuthUser.id authUser) db) as [|a rest] eqn:Hsel; simpl in Hfind.
  - simpl. unfold insert_profile, owns, check_profile.
    rewrite bool_decide_eq_true_2 by done. simpl.
    rewrite bool_decide_eq_false_2 by done.
    rewrite bool_decide_eq_true_2 by done. simpl.
    split; [done|]. split; [done|]. split.
    + apply newProfile_name.
    + f_equal. apply (newProfile_bio authUser).
  - exfalso. apply Hnone. destruct Hfind as [Ha <-]. by apply elem_of_map_1.
Qed.

Lemma handleUserSession_creates_profile_witness :
  AuthUser.id Scenario.carol_auth ∈ List.map AuthUser.id (auth_users Scenario.store0)
  ∧ (AuthUser.id Scenario.carol_auth ∉ List.map Profile.id (profiles Scenario.store0))
  ∧ ∃ created,
      UA.handleUserSession (Scenario.at_ "" 9000) Scenario.carol_auth Scenario.store0
        Scenario.signed_out
      = (add_profile created Scenario.store0,
         UA.setUser (Some created) Scenario.signed_out)
      ∧ Profile.name created = lit "User".
Proof.
  assert (Hin : AuthUser.id Scenario.carol_auth
                ∈ List.map AuthUser.id (auth_users Scenario.store0)).
  { vm_compute. do 2 apply list_elem_of_further. apply list_elem_of_here. }
  assert (Hout : AuthUser.id Scenario.carol_auth
                 ∉ List.map Profile.id (profiles Scenario.store0)).
  { vm_compute. intros H. repeat (apply elem_of_cons in H as [H|H]; [discriminate H|]).
    by apply elem_of_nil in H. }
  split; [exact Hin|]. split; [exact Hout|].
  destruct (handleUserSession_creates_profile (Scenario.at_ "" 9000) Scenario.carol_auth
              Scenario.store0 Scenario.signed_out Hin Hout)
    as (created & Hrun & _ & Hname & _).
  exists created. split; [exact Hrun|exact Hname].
Defined.

(** The two triggers: the one of scripts/supabase-setup.sql names Bob, who
    signed up without a name, "New User" and ignores his email address; the
    one of scripts/complete-database-setup.sql names him "bob", and has no
    placeholder: without a name and an email address the insert violates
    NOT NULL. *)
Example handle_new_user_variants :
  (∃ st, handle_new_user_setup (Scenario.at_ "" 9000) Scenario.bob_auth
           {| auth_users := [Scenario.bob_auth]; profiles := []; posts := [];
              likes := []; comments := [] |} = inr st
         ∧ List.map Profile.name (profiles st) = [lit "New User"])
  ∧ (∃ st, handle_new_user (Scenario.at_ "" 9000) Scenario.bob_auth
             {| auth_users := [Scenario.bob_auth]; profiles := []; posts := [];
                likes := []; comments := [] |} = inr st
           ∧ List.map Profile.name (profiles st) = [lit "bob"])
  ∧ handle_new_user (Scenario.at_ "" 9000) Scenario.carol_auth Scenario.store0
    = inl (not_null_violation "name").
Proof.
  split; [|split].
  - eexists. split; [vm_compute; reflexivity|reflexivity].
  - eexists. split; [vm_compute; reflexivity|reflexivity].
  - vm_compute. reflexivity.
Qed.

(** ** Creating a post *)

(** Blank content is dropped without a word by the dashboard, and stored by
    the REST server: neither path rejects it with a validation error. *)
Lemma createPost_blank_counterexample :
  trim (lit "   ") = []
  ∧ Dash.handleCreatePost (Some Scenario.alice) (Scenario.at_ "p2" 7000)
      Scenario.store0 (Scenario.typed (lit "   "))
    = (Scenario.store0, Scenario.typed (lit "   "))
  ∧ ¬ Spec.reports_error (Dash.toasts (Scenario.typed (lit "   ")))
        (Dash.toasts (snd (Dash.handleCreatePost (Some Scenario.alice)
                             (Scenario.at_ "p2" 7000) Scenario.store0
                             (Scenario.typed (lit "   ")))))
  ∧ Server.status (snd (Server.create_post Scenario.verify Scenario.env0
                          (Some (lit "Bearer token-1")) (Server.JString [])
                          Scenario.server0)) = 201
  ∧ List.map Server.Post.content
      (Server.posts (fst (Server.create_post Scenario.verify Scenario.env0
                            (Some (lit "Bearer token-1")) (Server.JString [])
                            Scenario.server0)))
    = [Server.JString (lit "Welcome to ConnectHub!"); Server.JString []].
Proof.
  split; [reflexivity|]. split; [reflexivity|]. split.
  - intros (t & Ht & _). vm_compute in Ht. by destruct t; discriminate.
  - split; vm_compute; reflexivity.
Qed.

Lemma insert_post_accepted uid d content user_id st row st' :
  insert_post uid d content user_id st = inr (row, st') →
  posts st' = (posts st ++ [row])
  ∧ Post.content row = content ∧ Post.user_id row = user_id.
Proof.
  unfold insert_post, owns.
  repeat (case_bool_decide; simpl; try discriminate).
  intros [= <- <-]. done.
Qed.

(** C2, amended. When the content is empty after trimming,
    [handleCreatePost] does nothing at all: no row is inserted, the state is
    as before and no error is reported. Whenever it does change the posts
    table, the trimmed content is not empty, a user is signed in, and the
    change is one new row with the content as typed, owned by that user. *)
Theorem handleCreatePost_requires_content (user : option Profile.t) (d : Defaults)
    (db : Store) (s : Dash.State) :
  (trim (Dash.newPost s) = [] → Dash.handleCreatePost user d db s = (db, s))
  ∧ (posts (fst (Dash.handleCreatePost user d db s)) ≠ posts db →
       trim (Dash.newPost s) ≠ []
       ∧ ∃ u row, user = Some u
           ∧ posts (fst (Dash.handleCreatePost user d db s)) = posts db ++ [row]
           ∧ Post.content row = Dash.newPost s
           ∧ Post.user_id row = Profile.id u).
Proof.
  unfold Dash.handleCreatePost. split.
  - by intros ->.
  - destruct (trim (Dash.newPost s)) as [|c t]; [done|].
    destruct user as [u|]; [|done].
    destruct (insert_post _ d (Dash.newPost s) (Profile.id u) db)
      as [e|[row db']] eqn:Hins; simpl; [done|].
    intros _. split; [done|].
    apply insert_post_accepted in Hins as (Hposts & Hcontent & Howner).
    exists u, row. done.
Qed.

(** ** The REST server *)

Section ServerFacts.
Import Server.
Variable bcrypt_hash : jsstring → jsstring → jsstring.
Variable bcrypt_compare : jsstring → jsstring → bool.
Variable jwt_sign : Z → jsval → jsstring.
Variable jwt_verify : jsstring → option jsval.

Lemma stripped_has_no_password (user : object) :
  ¬ is_Some (userWithoutPassword user !! "password").
Proof.
  unfold userWithoutPassword. rewrite lookup_delete_eq. by intros [? ?].
Qed.

Lemma message_exposes_nothing (m : string) : ¬ exposes_password (Message m).
Proof. intros (u & Hu & _). by apply elem_of_nil in Hu. Qed.

Lemma stripped_exposes_nothing (b : Body) :
  (∀ user, user ∈ body_users b → ∃ stored, user = userWithoutPassword stored) →
  ¬ exposes_password b.
Proof.
  intros Hall (u & Hu & Hpw). destruct (Hall u Hu) as [stored ->].
  by apply stripped_has_no_password in Hpw.
Qed.

Lemma find_by_email_Some (st : State) (email : jsval) (user : object) :
  find_by_email st email = Some user → user ∈ users st ∧ get user "email" = email.
Proof.
  unfold find_by_email. intros H. apply find_some in H as [Hin Heq].
  split; [by apply list_elem_of_In|]. by apply bool_decide_eq_true in Heq.
Qed.

Lemma find_by_email_exists (st : State) (email : jsval) :
  (∃ user, user ∈ users st ∧ get user "email" = email) →
  is_Some (find_by_email st email).
Proof.
  intros (user & Hin & Heq). unfold find_by_email.
  destruct (find _ (users st)) as [found|] eqn:Hfind; [by eexists|].
  exfalso. apply list_elem_of_In in Hin.
  pose proof (find_none _ _ Hfind user Hin) as Hf.
  apply bool_decide_eq_false in Hf. done.
Qed.

Lemma authenticateToken_refusal (authorization : option jsstring) (res : Response) :
  authenticateToken jwt_verify authorization = inl res →
  (∃ m, body res = Message m) ∧ (status res = 401 ∨ status res = 403).
Proof.
  unfold authenticateToken. intros H.
  repeat (case_match; simplify_eq; simpl; eauto).
Qed.

Lemma getUserById_Some (st : State) (id : jsval) (user : object) :
  getUserById st id = Some user → user ∈ users st ∧ get user "id" = id.
Proof.
  unfold getUserById. intros H. apply find_some in H as [Hin Heq].
  split; [by apply list_elem_of_In|]. by apply bool_decide_eq_true in Heq.
Qed.
End ServerFacts.

Section ServerClaims.
Import Server.
Variable bcrypt_hash : jsstring → jsstring → jsstring.
Variable bcrypt_compare : jsstring → jsstring → bool.
Variable jwt_sign : Z → jsval → jsstring.
Variable jwt_verify : jsstring → option jsval.

(** C9. No answer of register, login or get-user-by-id carries a user
    object with a [password] property. In the success cases (201 for
    register, 200 for the other two) the user object sent is the stored
    one, which does hold the hash, without that property. *)
Theorem responses_strip_password (e : Env) (reg : RegisterBody.t)
    (log : LoginBody.t) (authorization : option jsstring) (id : jsstring)
    (st : State) :
  ¬ exposes_password (body (snd (register bcrypt_hash jwt_sign e reg st)))
  ∧ ¬ exposes_password (body (login bcrypt_compare jwt_sign e log st))
  ∧ ¬ exposes_password (body (get_user jwt_verify authorization id st))
  ∧ (status (snd (register bcrypt_hash jwt_sign e reg st)) = 201 →
       ∃ user, users (fst (register bcrypt_hash jwt_sign e reg st)) = users st ++ [user]
         ∧ is_Some (user !! "password")
         ∧ body (snd (register bcrypt_hash jwt_sign e reg st))
           = TokenAndUser (jwt_sign (iat e) (get user "id")) (delete "password" user))
  ∧ (status (login bcrypt_compare jwt_sign e log st) = 200 →
       ∃ user, user ∈ users st
         ∧ body (login bcrypt_compare jwt_sign e log st)
           = TokenAndUser (jwt_sign (iat e) (get user "id")) (delete "password" user))
  ∧ (status (get_user jwt_verify authorization id st) = 200 →
       ∃ user, user ∈ users st
         ∧ body (get_user jwt_verify authorization id st)
           = User (delete "password" user)).
Proof.
  repeat split.
  - unfold register.
    destruct (find_by_email st _); simpl; [apply message_exposes_nothing|].
    destruct (RegisterBody.password reg); simpl; [apply message_exposes_nothing|].
    apply stripped_exposes_nothing. simpl. intros user Hu.
    apply list_elem_of_singleton in Hu. by eexists.
  - unfold login.
    destruct (find_by_email st _) as [user|]; simpl; [|apply message_exposes_nothing].
    destruct (LoginBody.password log), (get user "password");
      try apply message_exposes_nothing.
    destruct (bcrypt_compare _ _); simpl; [|apply message_exposes_nothing].
    apply stripped_exposes_nothing. simpl. intros u Hu.
    apply list_elem_of_singleton in Hu. by eexists.
  - unfold get_user.
    destruct (authenticateToken jwt_verify authorization) as [res|userId] eqn:Hauth.
    { apply authenticateToken_refusal in Hauth as [[m ->] _].
      apply message_exposes_nothing. }
    destruct (getUserById st _); simpl; [|apply message_exposes_nothing].
    apply stripped_exposes_nothing. simpl. intros u Hu.
    apply list_elem_of_singleton in Hu. by eexists.
  - unfold register.
    destruct (find_by_email st _); simpl; [discriminate|].
    destruct (RegisterBody.password reg); simpl; [discriminate|].
    intros _. eexists. split; [reflexivity|]. split; [|reflexivity].
    rewrite lookup_insert_ne by done. rewrite lookup_insert_ne by done.
    rewrite lookup_insert_ne by done. rewrite lookup_insert_eq. by eexists.
  - unfold login.
    destruct (find_by_email st _) as [user|] eqn:Hfind; simpl; [|discriminate].
    apply find_by_email_Some in Hfind as [Hin _].
    destruct (LoginBody.password log), (get user "password"); try discriminate.
    destruct (bcrypt_compare _ _); simpl; [|discriminate].
    intros _. by exists user.
  - unfold get_user.
    destruct (authenticateToken jwt_verify authorization) as [res|userId] eqn:Hauth.
    { apply authenticateToken_refusal in Hauth as [_ [Hs|Hs]];
        rewrite Hs; discriminate. }
    destruct (getUserById st _) as [user|] eqn:Hget; simpl; [|discriminate].
    apply getUserById_Some in Hget as [Hin _]. intros _. by exists user.
Qed.

(** C10. When a user of the store has the email of the request, register
    answers 400 with the message "User already exists", issues no token,
    and leaves the users and the posts as they were. *)
Theorem register_existing_email (e : Env) (req : RegisterBody.t) (st : State) :
  (∃ user, user ∈ users st ∧ get user "email" = RegisterBody.email req) →
  register bcrypt_hash jwt_sign e req st
  = (st, json 400 (Message "User already exists"))
  ∧ issued_token (body (snd (register bcrypt_hash jwt_sign e req st))) = None
  ∧ users (fst (register bcrypt_hash jwt_sign e req st)) = users st
  ∧ posts (fst (register bcrypt_hash jwt_sign e req st)) = posts st.
Proof.
  intros Hex. apply find_by_email_exists in Hex as [existingUser Hfind].
  unfold register. rewrite Hfind. done.
Qed.
End ServerClaims.

Lemma register_existing_email_witness :
  (∃ user, user ∈ Server.users Scenario.server0
     ∧ Server.get user "email" = Server.JString (lit "demo@example.com"))
  ∧ Server.register Scenario.hash Scenario.sign Scenario.env0
      {| Server.RegisterBody.name := Server.JString (lit "Mallory");
         Server.RegisterBody.email := Server.JString (lit "demo@example.com");
         Server.RegisterBody.password := Server.JString (lit "hunter2");
         Server.RegisterBody.bio := Server.undefined |}
      Scenario.server0
    = (Scenario.server0, Server.json 400 (Server.Message "User already exists")).
Proof.
  assert (Hex : ∃ user, user ∈ Server.users Scenario.server0
                  ∧ Server.get user "email" = Server.JString (lit "demo@example.com")).
  { exists Scenario.demo_user. split; [apply list_elem_of_here|].
    vm_compute. reflexivity. }
  split; [exact Hex|].
  apply (register_existing_email Scenario.hash Scenario.sign Scenario.env0
           {| Server.RegisterBody.name := Server.JString (lit "Mallory");
              Server.RegisterBody.email := Server.JString (lit "demo@example.com");
              Server.RegisterBody.password := Server.JString (lit "hunter2");
              Server.RegisterBody.bio := Server.undefined |}
           Scenario.server0 Hex).
Defined.

(** A fresh email address registers: the stored user holds the hash, the
    answer does not, and the new user can log in. *)
Example register_then_login :
  let req := {| Server.RegisterBody.name := Server.JString (lit "Bob");
                Server.RegisterBody.email := Server.JString (lit "bob@example.com");
                Server.RegisterBody.password := Server.JString (lit "hunter2");
                Server.RegisterBody.bio := Server.undefined |} in
  let r := Server.register Scenario.hash Scenario.sign Scenario.env0 req Scenario.server0 in
  Server.status (snd r) = 201
  ∧ Server.issued_token (Server.body (snd r)) = Some (lit "token-2.A")
  ∧ List.map (λ u, Server.get u "password") (Server.users (fst r))
    = [Server.get Scenario.demo_user "password";
       Server.JString (lit "salt$hunter2")]
  ∧ List.map (λ u, Server.get u "password") (Server.body_users (Server.body (snd r)))
    = [Server.undefined]
  ∧ Server.login Scenario.compare Scenario.sign Scenario.env1
      {| Server.LoginBody.email := Server.JString (lit "bob@example.com");
         Server.LoginBody.password := Server.JString (lit "hunter2") |}
      (fst r)
    = Server.json 200
        (Server.TokenAndUser (lit "token-2.B")
           (Server.userWithoutPassword
              (Server.new_user Scenario.hash Scenario.env0 req (lit "hunter2")))).
Proof. vm_compute. repeat split. Qed.

(** [getPostsWithAuthors] of the REST server, when every author is a user:
    the very posts it was given, newest first. *)
Lemma getPostsWithAuthors_newest_first (Date_value : jsstring → Z)
    (st : Server.State) (postList : list Server.Post.t)
    (result : list Server.PostWithAuthor.t) :
  Server.getPostsWithAuthors Date_value st postList = Some result →
  List.map Server.PostWithAuthor.post result ≡ₚ postList
  ∧ StronglySorted
      (λ a b, Date_value (Server.Post.createdAt (Server.PostWithAuthor.post b))
              ≤ Date_value (Server.Post.createdAt (Server.PostWithAuthor.post a)))
      result.
Proof.
  unfold Server.getPostsWithAuthors. intros H.
  destruct (mapM (Server.with_author st) postList) as [joined|] eqn:Hj;
    [|discriminate].
  simpl in H. injection H as <-. split.
  - rewrite sort_by_perm. apply mapM_Some in Hj.
    induction Hj as [|post view posts views Hview _ IH]; [done|].
    simpl. unfold Server.with_author in Hview.
    destruct (Server.getUserById st _); [|discriminate].
    simpl in Hview. injection Hview as <-. simpl. by rewrite IH.
  - apply Sorted_StronglySorted; [intros x y z ??; lia|].
    eapply Sorted_ind with
      (R := λ a b, (Date_value (Server.Post.createdAt (Server.PostWithAuthor.post b))
                    - Date_value (Server.Post.createdAt (Server.PostWithAuthor.post a))
                    <=? 0) = true)
      (P := Sorted _).
    + constructor.
    + intros a l _ IH Hhd. constructor; [done|]. destruct Hhd; constructor. lia.
    + apply sort_by_Sorted. intros x y. lia.
Qed.

(** In any table that satisfies the constraint, whatever happened since the
    like: a row for (U, P) is the only one, and U's next insert for the
    pair is a unique violation. *)
Lemma duplicate_like_rejected (d : Defaults) (U P : uuid) (st : Store) :
  unique_likes st →
  (U, P) ∈ List.map like_key (likes st) →
  (∃ c, insert_like (Some U) d P U st = inl (unique_violation c))
  ∧ length (select_likes P U st) = 1%nat.
Proof.
  intros Hnd Hin. split.
  - by destruct (insert_like_duplicate (Some U) d P U st eq_refl Hin).
  - pose proof (select_likes_at_most_one P U st Hnd) as Hle.
    apply elem_of_map_inv in Hin as (l & Hl & Hkey).
    assert (Hsel : l ∈ select_likes P U st).
    { apply select_likes_spec. unfold like_key in Hkey. by inversion Hkey. }
    destruct (select_likes P U st); [by apply elem_of_nil in Hsel|].
    simpl in *. lia.
Qed.

(** ** What every reachable store satisfies *)

Lemma NoDup_map_filter {A B : Type} (f : A → B) (Q : A → Prop)
    `{∀ x, Decision (Q x)} (l : list A) :
  NoDup (List.map f l) → NoDup (List.map f (filter Q l)).
Proof.
  induction l as [|x l IH]; [done|]. simpl.
  intros [Hx Hnd]%NoDup_cons. rewrite filter_cons.
  destruct (decide (Q x)); [|by auto].
  simpl. apply NoDup_cons. split; [|by auto].
  intros (y & Hy & Hfy)%elem_of_map_inv. apply Hx. rewrite <- Hfy.
  apply elem_of_map_1. by apply list_elem_of_filter in Hy as [_ ?].
Qed.

Lemma trigger_insert_tables d id name email bio st st' :
  trigger_insert d id name email bio st = inr st' →
  posts st' = posts st ∧ likes st' = likes st ∧ comments st' = comments st.
Proof.
  unfold trigger_insert. destruct name, email; try discriminate.
  destruct (check_profile _ st); [discriminate|]. by intros [= <-].
Qed.

Lemma insert_profile_tables uid d n st row st' :
  insert_profile uid d n st = inr (row, st') →
  posts st' = posts st ∧ likes st' = likes st ∧ comments st' = comments st.
Proof.
  unfold insert_profile. destruct (negb _); [discriminate|].
  destruct (check_profile n st); [discriminate|]. by intros [= <- <-].
Qed.

Lemma insert_post_tables uid d content user_id st row st' :
  insert_post uid d content user_id st = inr (row, st') →
  posts st' = (posts st ++ [row]) ∧ likes st' = likes st ∧ comments st' = comments st.
Proof.
  unfold insert_post. repeat (case_bool_decide; simpl; try discriminate);
    destruct (owns _ _); simpl; try discriminate; by intros [= <- <-].
Qed.

Lemma insert_comment_tables uid d content P U st row st' :
  insert_comment uid d content P U st = inr (row, st') →
  posts st' = posts st ∧ likes st' = likes st
  ∧ comments st' = (comments st ++ [row])
  ∧ Comment.post_id row = P ∧ P ∈ List.map Post.id (posts st).
Proof.
  unfold insert_comment. destruct (owns _ _); simpl; [|discriminate].
  repeat (case_bool_decide; simpl; try discriminate). by intros [= <- <-].
Qed.

Lemma step_unique_likes (st st' : Store) :
  step st st' → unique_likes st → unique_likes st'.
Proof.
  unfold unique_likes. destruct 1 as
    [d NEW st st' H|uid d n st row st' H|uid d content U st row st' H
    |uid d P U st st' H|uid d content P U st row st' H|uid P U st|uid P st|id st];
    intros Hnd.
  - apply trigger_insert_tables in H as (_ & -> & _). done.
  - apply insert_profile_tables in H as (_ & -> & _). done.
  - apply insert_post_tables in H as (_ & -> & _). done.
  - by apply (insert_like_unique uid d P U st).
  - apply insert_comment_tables in H as (_ & -> & _). done.
  - by apply delete_like_unique.
  - simpl. by apply NoDup_map_filter.
  - simpl. by apply NoDup_map_filter.
Qed.

Lemma step_references_posts (st st' : Store) :
  step st st' → references_posts st → references_posts st'.
Proof.
  unfold references_posts. destruct 1 as
    [d NEW st st' H|uid d n st row st' H|uid d content U st row st' H
    |uid d P U st st' H|uid d content P U st row st' H|uid P U st|uid P st|id st];
    intros [Hl Hc].
  - apply trigger_insert_tables in H as (-> & -> & ->). done.
  - apply insert_profile_tables in H as (-> & -> & ->). done.
  - apply insert_post_tables in H as (-> & -> & ->).
    rewrite map_app. split; intros r Hr; apply elem_of_app; left; auto.
  - apply insert_like_accepted in H as (_ & (_ & _ & _ & HP) & -> & _ & -> & ->).
    split; [|done]. intros l [Hin| ->%list_elem_of_singleton]%elem_of_app; auto.
  - apply insert_comment_tables in H as (-> & -> & -> & HP & Hin).
    split; [done|]. intros c [Hold| ->%list_elem_of_singleton]%elem_of_app; [auto|].
    by rewrite HP.
  - simpl. split; [|done]. intros l [_ Hin]%list_elem_of_filter. auto.
  - simpl. split.
    + intros l [Hkeep Hin]%list_elem_of_filter.
      destruct (elem_of_map_inv _ _ _ (Hl l Hin)) as (p & Hp & Hid).
      rewrite <- Hid. apply elem_of_map_1. apply list_elem_of_filter.
      split; [|done]. intros Hdel. apply Hkeep. rewrite <- Hid.
      apply (elem_of_map_1 Post.id). by apply list_elem_of_filter.
    + intros c [Hkeep Hin]%list_elem_of_filter.
      destruct (elem_of_map_inv _ _ _ (Hc c Hin)) as (p & Hp & Hid).
      rewrite <- Hid. apply elem_of_map_1. apply list_elem_of_filter.
      split; [|done]. intros Hdel. apply Hkeep. rewrite <- Hid.
      apply (elem_of_map_1 Post.id). by apply list_elem_of_filter.
  - simpl. split.
    + intros l [[_ Hkeep] Hin]%list_elem_of_filter.
      destruct (elem_of_map_inv _ _ _ (Hl l Hin)) as (p & Hp & Hid).
      rewrite <- Hid. apply elem_of_map_1. apply list_elem_of_filter.
      split; [|done]. intros Hdel. apply Hkeep. rewrite <- Hid.
      apply (elem_of_map_1 Post.id). by apply list_elem_of_filter.
    + intros c [[_ Hkeep] Hin]%list_elem_of_filter.
      destruct (elem_of_map_inv _ _ _ (Hc c Hin)) as (p & Hp & Hid).
      rewrite <- Hid. apply elem_of_map_1. apply list_elem_of_filter.
      split; [|done]. intros Hdel. apply Hkeep. rewrite <- Hid.
      apply (elem_of_map_1 Post.id). by apply list_elem_of_filter.
Qed.

(** X1. In every store the statements can produce from empty tables, no two
    Like rows have the same (user_id, post_id), and every Like and Comment
    row references a post that is there. *)
Theorem reachable_consistent (st : Store) :
  reachable st → unique_likes st ∧ references_posts st.
Proof.
  induction 1 as [|st st' _ [IHu IHr] Hstep].
  - split; [apply NoDup_nil_2|]. split; intros ? Hin; by apply elem_of_nil in Hin.
  - split; [by eapply step_unique_likes|by eapply step_references_posts].
Qed.

(** * Further properties *)

(** ** The keys of every reachable store *)

Lemma sign_up_shape d NEW st st' :
  sign_up d NEW st = inr st' →
  ∃ row,
    st' = {| auth_users := auth_users st ++ [NEW];
             profiles := profiles st ++ [row];
             posts := posts st; likes := likes st; comments := comments st |}
    ∧ Profile.id row = AuthUser.id NEW
    ∧ (AuthUser.id NEW ∉ List.map Profile.id (profiles st))
    ∧ (∃ e, AuthUser.email NEW = Some e ∧ Profile.email row = e)
    ∧ Profile.name row
      = default (default [] (Spec.local_part <$> AuthUser.email NEW)) (meta_name NEW)
    ∧ Profile.bio row = Some (default [] (meta_bio NEW)).
Proof.
  unfold sign_up, handle_new_user, trigger_insert, check_profile.
  destruct (AuthUser.email NEW) as [e|] eqn:He; simpl.
  - assert (Hname : COALESCE (meta_name NEW) (head (split 64 e))
                    = Some (default (Spec.local_part e) (meta_name NEW))).
    { rewrite split_head_local_part. by destruct (meta_name NEW). }
    rewrite Hname.
    case_bool_decide as Hpk; [discriminate|].
    case_bool_decide as Hfk; simpl; [|discriminate].
    intros [= <-]. eexists. split; [reflexivity|]. simpl.
    split; [done|]. split; [done|]. split; [by eexists|]. split; [done|].
    by destruct (meta_bio NEW).
  - destruct (COALESCE (meta_name NEW) None); discriminate.
Qed.

Lemma insert_profile_shape uid d n st row st' :
  insert_profile uid d n st = inr (row, st') →
  st' = add_profile row st
  ∧ uid = Some (Profile.id row)
  ∧ (Profile.id row ∉ List.map Profile.id (profiles st))
  ∧ Profile.id row ∈ List.map AuthUser.id (auth_users st).
Proof.
  unfold insert_profile, owns, check_profile.
  repeat (case_bool_decide; simpl; try discriminate).
  intros [= <- <-]. done.
Qed.

Lemma insert_post_shape uid d content user_id st row st' :
  insert_post uid d content user_id st = inr (row, st') →
  st' = {| auth_users := auth_users st; profiles := profiles st;
           posts := posts st ++ [row]; likes := likes st;
           comments := comments st |}
  ∧ uid = Some user_id
  ∧ row = {| Post.id := gen_random_uuid d; Post.content := content;
             Post.user_id := user_id; Post.created_at := NOW d;
             Post.updated_at := NOW d |}
  ∧ (gen_random_uuid d ∉ List.map Post.id (posts st))
  ∧ user_id ∈ List.map Profile.id (profiles st).
Proof.
  unfold insert_post, owns.
  repeat (case_bool_decide; simpl; try discriminate).
  intros [= <- <-]. done.
Qed.

Lemma insert_like_shape uid d P U st st' :
  insert_like uid d P U st = inr st' →
  st' = {| auth_users := auth_users st; profiles := profiles st;
           posts := posts st; likes := likes st ++ [like_row d P U];
           comments := comments st |}
  ∧ uid = Some U ∧ acceptable_like d P U st.
Proof.
  unfold insert_like, owns, acceptable_like.
  repeat (case_bool_decide; simpl; try discriminate).
  intros [= <-]. done.
Qed.

Lemma insert_comment_shape uid d content P U st row st' :
  insert_comment uid d content P U st = inr (row, st') →
  st' = {| auth_users := auth_users st; profiles := profiles st;
           posts := posts st; likes := likes st;
           comments := comments st ++ [row] |}
  ∧ uid = Some U
  ∧ row = comment_row d content P U
  ∧ (gen_random_uuid d ∉ List.map Comment.id (comments st))
  ∧ U ∈ List.map Profile.id (profiles st)
  ∧ P ∈ List.map Post.id (posts st).
Proof.
  unfold insert_comment, owns.
  repeat (case_bool_decide; simpl; try discriminate).
  intros [= <- <-]. done.
Qed.

Lemma NoDup_map_snoc {A B : Type} (f : A → B) (l : list A) (x : A) :
  NoDup (List.map f l) → f x ∉ List.map f l → NoDup (List.map f (l ++ [x])).
Proof.
  intros Hnd Hx. rewrite map_app. simpl. apply NoDup_app. split; [done|].
  split; [|apply NoDup_singleton].
  intros y Hy ->%list_elem_of_singleton. done.
Qed.

Lemma elem_of_map_snoc {A B : Type} (f : A → B) (l : list A) (x : A) (y : B) :
  y ∈ List.map f l → y ∈ List.map f (l ++ [x]).
Proof. intros. rewrite map_app. apply elem_of_app. by left. Qed.

Lemma elem_of_map_filter {A B : Type} (f : A → B) (Q : A → Prop)
    `{∀ x, Decision (Q x)} (l : list A) (y : B) :
  y ∈ List.map f l → (∀ x, f x = y → Q x) → y ∈ List.map f (filter Q l).
Proof.
  intros (x & Hx & <-)%elem_of_map_inv HQ. apply elem_of_map_1.
  apply list_elem_of_filter. auto.
Qed.

Lemma step_integrity (st st' : Store) :
  step st st' → integrity st → integrity st'.
Proof.
  destruct 1 as
    [d NEW st st' H|uid d n st row st' H|uid d content U st row st' H
    |uid d P U st st' H|uid d content P U st row st' H|uid P U st|uid P st|id st];
    intros [Hp Ho Hl Hc Hfp Hfo Hfl Hfc].
  - apply sign_up_shape in H as (row & -> & Hid & Hfresh & _).
    constructor; simpl; try done.
    + apply NoDup_map_snoc; [done|by rewrite Hid].
    + intros p [Hin| ->%list_elem_of_singleton]%elem_of_app.
      * by apply elem_of_map_snoc, Hfp.
      * rewrite Hid, map_app. apply elem_of_app. right. apply list_elem_of_here.
    + intros p Hin. by apply elem_of_map_snoc, Hfo.
    + intros p Hin. by apply elem_of_map_snoc, Hfl.
    + intros p Hin. by apply elem_of_map_snoc, Hfc.
  - apply insert_profile_shape in H as (-> & _ & Hfresh & Hauth).
    constructor; simpl; try done.
    + by apply NoDup_map_snoc.
    + intros p [Hin| ->%list_elem_of_singleton]%elem_of_app; auto.
    + intros p Hin. by apply elem_of_map_snoc, Hfo.
    + intros p Hin. by apply elem_of_map_snoc, Hfl.
    + intros p Hin. by apply elem_of_map_snoc, Hfc.
  - apply insert_post_shape in H as (-> & _ & -> & Hfresh & Hprof).
    constructor; simpl; try done.
    + by apply NoDup_map_snoc.
    + intros p [Hin| ->%list_elem_of_singleton]%elem_of_app; auto.
  - apply insert_like_shape in H as (-> & _ & Hfresh & _ & Hprof & _).
    constructor; simpl; try done.
    + by apply NoDup_map_snoc.
    + intros p [Hin| ->%list_elem_of_singleton]%elem_of_app; auto.
  - apply insert_comment_shape in H as (-> & _ & -> & Hfresh & Hprof & _).
    constructor; simpl; try done.
    + by apply NoDup_map_snoc.
    + intros p [Hin| ->%list_elem_of_singleton]%elem_of_app; auto.
  - constructor; simpl; try done.
    + by apply NoDup_map_filter.
    + intros l [_ Hin]%list_elem_of_filter. auto.
  - constructor; simpl; try done.
    + by apply NoDup_map_filter.
    + by apply NoDup_map_filter.
    + by apply NoDup_map_filter.
    + intros p [_ Hin]%list_elem_of_filter. auto.
    + intros p [_ Hin]%list_elem_of_filter. auto.
    + intros p [_ Hin]%list_elem_of_filter. auto.
  - constructor; simpl.
    + by apply NoDup_map_filter.
    + by apply NoDup_map_filter.
    + by apply NoDup_map_filter.
    + by apply NoDup_map_filter.
    + intros p [Hne Hin]%list_elem_of_filter.
      apply elem_of_map_filter; [auto|]. intros u Hu. congruence.
    + intros p [Hne Hin]%list_elem_of_filter.
      apply elem_of_map_filter; [auto|]. intros u Hu. congruence.
    + intros p [[Hne _] Hin]%list_elem_of_filter.
      apply elem_of_map_filter; [auto|]. intros u Hu. congruence.
    + intros p [[Hne _] Hin]%list_elem_of_filter.
      apply elem_of_map_filter; [auto|]. intros u Hu. congruence.
Qed.

(** X2. In every store the statements can produce from empty tables the ids
    of profiles, posts, likes and comments
    are unique, every profile belongs to a principal, and every post, like
    and comment belongs to a profile. *)
Theorem reachable_integrity (st : Store) : reachable st → integrity st.
Proof.
  induction 1 as [|st st' _ IH Hstep]; [|by eapply step_integrity].
  constructor; simpl; try apply NoDup_nil_2; intros ? Hin; by apply elem_of_nil in Hin.
Qed.

(** Two sign-ups, a post, a like and two comments lead from empty tables to
    the store of the scenario. *)
Lemma store3_reachable : reachable Scenario.store3.
Proof.
  assert (H1 : reachable
                 {| auth_users := [Scenario.alice_auth];
                    profiles := [Scenario.alice];
                    posts := []; likes := []; comments := [] |}).
  { eapply reachable_step; [apply reachable_empty|].
    apply (step_sign_up (Scenario.at_ "" 1000) Scenario.alice_auth).
    vm_compute. reflexivity. }
  assert (H2 : reachable
                 {| auth_users := [Scenario.alice_auth; Scenario.bob_auth];
                    profiles := [Scenario.alice; Scenario.bob];
                    posts := []; likes := []; comments := [] |}).
  { eapply reachable_step; [exact H1|].
    apply (step_sign_up (Scenario.at_ "" 2000) Scenario.bob_auth).
    vm_compute. reflexivity. }
  assert (H3 : reachable
                 {| auth_users := [Scenario.alice_auth; Scenario.bob_auth];
                    profiles := [Scenario.alice; Scenario.bob];
                    posts := [Scenario.hello]; likes := []; comments := [] |}).
  { eapply reachable_step; [exact H2|].
    apply (step_insert_post (Some (lit "a11ce")) (Scenario.at_ "p1" 3000)
             (lit "Hello world") (lit "a11ce") _ Scenario.hello).
    vm_compute. reflexivity. }
  assert (H4 : reachable
                 {| auth_users := [Scenario.alice_auth; Scenario.bob_auth];
                    profiles := [Scenario.alice; Scenario.bob];
                    posts := [Scenario.hello]; likes := likes Scenario.store1;
                    comments := [] |}).
  { eapply reachable_step; [exact H3|].
    apply (step_insert_like (Some (lit "b0b")) (Scenario.at_ "l1" 4000)
             (lit "p1") (lit "b0b")).
    vm_compute. reflexivity. }
  assert (H5 : reachable
                 {| auth_users := [Scenario.alice_auth; Scenario.bob_auth];
                    profiles := [Scenario.alice; Scenario.bob];
                    posts := [Scenario.hello]; likes := likes Scenario.store1;
                    comments := [Scenario.nice "c1" 5000] |}).
  { eapply reachable_step; [exact H4|].
    apply (step_insert_comment (Some (lit "b0b")) (Scenario.at_ "c1" 5000)
             (lit "Nice!") (lit "p1") (lit "b0b") _ (Scenario.nice "c1" 5000)).
    vm_compute. reflexivity. }
  eapply reachable_step; [exact H5|].
  apply (step_insert_comment (Some (lit "b0b")) (Scenario.at_ "c2" 6000)
           (lit "Nice!") (lit "p1") (lit "b0b") _ (Scenario.nice "c2" 6000)).
  vm_compute. reflexivity.
Qed.

Lemma reachable_integrity_witness :
  reachable Scenario.store3
  ∧ length (profiles Scenario.store3) = 2%nat
  ∧ length (posts Scenario.store3) = 1%nat
  ∧ length (likes Scenario.store3) = 1%nat
  ∧ length (comments Scenario.store3) = 2%nat
  ∧ integrity Scenario.store3.
Proof.
  split; [exact store3_reachable|]. do 4 (split; [reflexivity|]).
  exact (reachable_integrity Scenario.store3 store3_reachable).
Defined.

Lemma reachable_consistent_witness :
  reachable Scenario.store3
  ∧ like_count Scenario.store3 (lit "p1") = 1
  ∧ comment_count Scenario.store3 (lit "p1") = 2
  ∧ unique_likes Scenario.store3
  ∧ references_posts Scenario.store3.
Proof.
  split; [exact store3_reachable|]. do 2 (split; [reflexivity|]).
  exact (reachable_consistent Scenario.store3 store3_reachable).
Defined.

(** ** Who may change what *)

Lemma filter_all {A : Type} (Q : A → Prop) `{∀ x, Decision (Q x)} (l : list A) :
  (∀ x, x ∈ l → Q x) → filter Q l = l.
Proof.
  induction l as [|x l IH]; [done|]. intros Hall.
  rewrite filter_cons, decide_True by (apply Hall, list_elem_of_here).
  f_equal. apply IH. intros y Hy. by apply Hall, list_elem_of_further.
Qed.

(** X3. A delete of a post by anyone but its owner, a visitor without a
    session included, removes nothing: the store is as it was, and no error
    is raised. *)
Theorem delete_post_not_owner (uid : option uuid) (P : uuid) (st : Store) :
  (∀ p, p ∈ posts st → Post.id p = P → uid ≠ Some (Post.user_id p)) →
  delete_post uid P st = st.
Proof.
  intros Hown.
  assert (Hgone : deleted_posts uid P st = []).
  { unfold deleted_posts. rewrite filter_none; [done|].
    intros p Hp [Hid Hu]. by apply (Hown p). }
  unfold delete_post. rewrite Hgone. destruct st as [a pr po li co]. simpl in *.
  f_equal.
  - apply filter_all. intros p Hp [Hid Hu]. by apply (Hown p).
  - apply filter_all. intros l _. apply not_elem_of_nil.
  - apply filter_all. intros c _. apply not_elem_of_nil.
Qed.

Lemma delete_post_not_owner_witness :
  (∀ p, p ∈ posts Scenario.store2 → Post.id p = lit "p1" →
        Some (lit "b0b") ≠ Some (Post.user_id p))
  ∧ delete_post (Some (lit "b0b")) (lit "p1") Scenario.store2 = Scenario.store2.
Proof.
  assert (H : ∀ p, p ∈ posts Scenario.store2 → Post.id p = lit "p1" →
                   Some (lit "b0b") ≠ Some (Post.user_id p)).
  { intros p Hp _. apply list_elem_of_singleton in Hp. subst p. discriminate. }
  split; [exact H|exact (delete_post_not_owner _ _ _ H)].
Defined.

(** X4. Whatever a session asks for, its insert and its delete on likes
    neither add nor remove a Like row of another user. *)
Theorem likes_of_others_untouched (uid : option uuid) (d : Defaults) (P U : uuid)
    (st : Store) (l : Like.t) :
  Some (Like.user_id l) ≠ uid →
  (l ∈ likes (delete_like uid P U st) ↔ l ∈ likes st)
  ∧ (∀ st', insert_like uid d P U st = inr st' → (l ∈ likes st' ↔ l ∈ likes st)).
Proof.
  intros Hother. split.
  - simpl. rewrite list_elem_of_filter. split; [tauto|].
    intros Hin. split; [|done]. intros (_ & _ & Hu). by apply Hother.
  - intros st' (-> & -> & _)%insert_like_shape. simpl.
    rewrite elem_of_app, list_elem_of_singleton. split; [|tauto].
    intros [Hin| ->]; [done|]. by destruct Hother.
Qed.

Lemma likes_of_others_untouched_witness :
  Some (Like.user_id (like_row (Scenario.at_ "l1" 4000) (lit "p1") (lit "b0b")))
    ≠ Some (lit "a11ce")
  ∧ like_row (Scenario.at_ "l1" 4000) (lit "p1") (lit "b0b")
    ∈ likes (delete_like (Some (lit "a11ce")) (lit "p1") (lit "b0b") Scenario.store1).
Proof.
  assert (H : Some (Like.user_id (like_row (Scenario.at_ "l1" 4000) (lit "p1") (lit "b0b")))
              ≠ Some (lit "a11ce")) by discriminate.
  split; [exact H|].
  destruct (likes_of_others_untouched _ (Scenario.at_ "" 0) (lit "p1") (lit "b0b")
              Scenario.store1 _ H) as [Hdelete _].
  apply Hdelete. apply list_elem_of_here.
Defined.

(** X5. Deleting a principal leaves no profile with its id, no post, like
    or comment it wrote, and no like or comment on a post it wrote; every
    other post, like and comment stays. *)
Theorem delete_auth_user_cascade (id : uuid) (st : Store) :
  (id ∉ List.map Profile.id (profiles (delete_auth_user id st)))
  ∧ (∀ p, p ∈ posts (delete_auth_user id st) ↔ p ∈ posts st ∧ Post.user_id p ≠ id)
  ∧ (∀ l, l ∈ likes (delete_auth_user id st) ↔
          l ∈ likes st ∧ Like.user_id l ≠ id
          ∧ ∀ p, p ∈ posts st → Post.id p = Like.post_id l → Post.user_id p ≠ id)
  ∧ (∀ c, c ∈ comments (delete_auth_user id st) ↔
          c ∈ comments st ∧ Comment.user_id c ≠ id
          ∧ ∀ p, p ∈ posts st → Post.id p = Comment.post_id c → Post.user_id p ≠ id).
Proof.
  assert (Hgone : ∀ q, q ∈ List.map Post.id (filter (λ p, Post.user_id p = id) (posts st))
                       ↔ ∃ p, p ∈ posts st ∧ Post.id p = q ∧ Post.user_id p = id).
  { intros q. split.
    - intros (p & [Hu Hp]%list_elem_of_filter & Hid)%elem_of_map_inv. eauto.
    - intros (p & Hp & <- & Hu). apply elem_of_map_1. by apply list_elem_of_filter. }
  split; [|split; [|split]].
  - intros (p & [Hne _]%list_elem_of_filter & Hid)%elem_of_map_inv. done.
  - intros p. simpl. rewrite list_elem_of_filter. tauto.
  - intros l. simpl. rewrite list_elem_of_filter, Hgone. split.
    + intros [[Hu Hno] Hin]. repeat split; [done..|].
      intros p Hp Hid Hown. apply Hno. eauto.
    + intros (Hin & Hu & Hno). repeat split; [done| |done].
      intros (p & Hp & Hid & Hown). by apply (Hno p).
  - intros c. simpl. rewrite list_elem_of_filter, Hgone. split.
    + intros [[Hu Hno] Hin]. repeat split; [done..|].
      intros p Hp Hid Hown. apply Hno. eauto.
    + intros (Hin & Hu & Hno). repeat split; [done| |done].
      intros (p & Hp & Hid & Hown). by apply (Hno p).
Qed.

(** X6. Signing up creates a profile exactly when the principal has an
    email address and no profile with its id exists: a missing email
    violates NOT NULL, a taken id the primary key. The profile gets the
    sign-up name when one was given (an empty one included), else the part
    of the email before the first '@'; the email; and the sign-up bio, the
    empty string when none was given. *)
Theorem sign_up_profile (d : Defaults) (NEW : AuthUser.t) (st : Store) :
  (AuthUser.email NEW = None →
     ∃ column, sign_up d NEW st = inl (not_null_violation column))
  ∧ (is_Some (AuthUser.email NEW) →
     AuthUser.id NEW ∈ List.map Profile.id (profiles st) →
     sign_up d NEW st = inl (unique_violation "profiles_pkey"))
  ∧ (∀ e, AuthUser.email NEW = Some e →
     AuthUser.id NEW ∉ List.map Profile.id (profiles st) →
     ∃ row,
       sign_up d NEW st
       = inr {| auth_users := auth_users st ++ [NEW];
                profiles := profiles st ++ [row];
                posts := posts st; likes := likes st; comments := comments st |}
       ∧ Profile.id row = AuthUser.id NEW
       ∧ Profile.name row = default (Spec.local_part e) (meta_name NEW)
       ∧ Profile.email row = e
       ∧ Profile.bio row = Some (default [] (meta_bio NEW))).
Proof.
  unfold sign_up, handle_new_user, trigger_insert, check_profile.
  split; [|split].
  - intros ->. simpl. destruct (COALESCE (meta_name NEW) None); eauto.
  - intros [e ->] Hin. simpl.
    rewrite split_head_local_part.
    destruct (COALESCE (meta_name NEW) _) as [n|] eqn:Hn;
      [|by destruct (meta_name NEW)].
    by rewrite bool_decide_eq_true_2.
  - intros e -> Hout. simpl. rewrite split_head_local_part.
    assert (Hn : COALESCE (meta_name NEW) (Some (Spec.local_part e))
                 = Some (default (Spec.local_part e) (meta_name NEW)))
      by (by destruct (meta_name NEW)).
    rewrite Hn. rewrite bool_decide_eq_false_2 by done.
    rewrite bool_decide_eq_true_2.
    + simpl. eexists. split; [reflexivity|]. simpl.
      repeat split. by destruct (meta_bio NEW).
    + simpl. rewrite map_app. apply elem_of_app. right. apply list_elem_of_here.
Qed.

(** ** The view [posts_with_counts] *)

Lemma filter_key_map {A : Type} (c : uuid → A) (k : uuid) (l : list uuid) :
  NoDup l →
  filter (λ g : uuid * A, g.1 = k) (List.map (λ k', (k', c k')) l)
  = if decide (k ∈ l) then [(k, c k)] else [].
Proof.
  induction 1 as [|x l Hx Hnd IH].
  - destruct (decide (k ∈ [])) as [Hin|_]; [by apply elem_of_nil in Hin|done].
  - cbn [List.map]. rewrite filter_cons, IH. cbn [fst].
    destruct (decide (x = k)) as [->|Hne].
    + destruct (decide (k ∈ k :: l)) as [_|Hout];
        [|by destruct Hout; apply list_elem_of_here].
      by destruct (decide (k ∈ l)).
    + destruct (decide (k ∈ l)) as [Hin|Hout];
        destruct (decide (k ∈ x :: l)) as [Hin'|Hout']; try done.
      * destruct Hout'. by apply list_elem_of_further.
      * apply elem_of_cons in Hin' as [?|?]; congruence.
Qed.

Lemma length_filter_map {A : Type} (f : A → uuid) (k : uuid) (l : list A) :
  length (filter (λ x, x = k) (List.map f l)) = length (filter (λ a, f a = k) l).
Proof.
  induction l as [|a l IH]; [done|]. simpl. rewrite !filter_cons.
  destruct (decide (f a = k)); simpl; by rewrite IH.
Qed.

Lemma left_join_group {A : Type} (key : A → uuid) (rows : list A) (ids : list uuid) :
  List.map (λ r, (r.1, coalesce_zero r.2)) (left_join key rows (group_by_post_id ids))
  = List.map (λ r, (r, Z.of_nat (length (filter (λ x, x = key r) ids)))) rows.
Proof.
  unfold left_join, group_by_post_id.
  induction rows as [|r rows IH]; [done|]. cbn [List.flat_map].
  rewrite map_app, IH. cbn [List.map app].
  rewrite filter_key_map by apply NoDup_remove_dups.
  destruct (decide (key r ∈ remove_dups ids)) as [Hin|Hout]; simpl; [done|].
  rewrite filter_none; [done|].
  intros x Hx ->. apply Hout. by apply elem_of_remove_dups.
Qed.

Lemma posts_with_counts_rows (st : Store) :
  posts_with_counts st
  = List.map (λ p, {| PostWithCounts.post := p;
                      PostWithCounts.like_count :=
                        Z.of_nat (length (filter (λ l, Like.post_id l = Post.id p)
                                            (likes st)));
                      PostWithCounts.comment_count :=
                        Z.of_nat (length (filter (λ c, Comment.post_id c = Post.id p)
                                            (comments st))) |})
      (posts st).
Proof.
  unfold posts_with_counts, like_count, comment_count.
  set (lc := group_by_post_id (List.map Like.post_id (likes st))).
  set (cc := group_by_post_id (List.map Comment.post_id (comments st))).
  pose proof (left_join_group (λ r : Post.t * option Z, Post.id r.1)
                (left_join Post.id (posts st) lc)
                (List.map Comment.post_id (comments st))) as Hc.
  fold cc in Hc.
  pose proof (left_join_group Post.id (posts st) (List.map Like.post_id (likes st)))
    as Hl.
  fold lc in Hl.
  transitivity
    (List.map (λ r : (Post.t * option Z) * Z,
                 {| PostWithCounts.post := r.1.1;
                    PostWithCounts.like_count := coalesce_zero r.1.2;
                    PostWithCounts.comment_count := r.2 |})
       (List.map (λ r, (r.1, coalesce_zero r.2))
          (left_join (λ r : Post.t * option Z, Post.id r.1)
             (left_join Post.id (posts st) lc) cc))).
  { by rewrite List.map_map. }
  rewrite Hc, List.map_map. simpl.
  transitivity
    (List.map (λ r : Post.t * Z,
                 {| PostWithCounts.post := r.1;
                    PostWithCounts.like_count := r.2;
                    PostWithCounts.comment_count :=
                      Z.of_nat (length (filter (λ x, x = Post.id r.1)
                                          (List.map Comment.post_id (comments st)))) |})
       (List.map (λ r, (r.1, coalesce_zero r.2)) (left_join Post.id (posts st) lc))).
  { by rewrite List.map_map. }
  rewrite Hl, List.map_map. simpl.
  apply List.map_ext. intros p. by rewrite !length_filter_map.
Qed.

(** X7. The view [posts_with_counts] has, in whatever order, exactly one
    row for every post, with the numbers of Like and Comment rows that
    reference the post (0 when there are none). *)
Theorem posts_with_counts_correct (st : Store) :
  posts_with_counts st
  ≡ₚ List.map (λ p, {| PostWithCounts.post := p;
                       PostWithCounts.like_count :=
                         Z.of_nat (length (filter (λ l, Like.post_id l = Post.id p)
                                             (likes st)));
                       PostWithCounts.comment_count :=
                         Z.of_nat (length (filter (λ c, Comment.post_id c = Post.id p)
                                             (comments st))) |})
       (posts st).
Proof. by rewrite posts_with_counts_rows. Qed.

(** ** Resolving a profile, again *)

Lemma select_profile_snoc (id : uuid) (row : Profile.t) (st : Store) :
  Profile.id row = id → id ∉ List.map Profile.id (profiles st) →
  select_profile id (add_profile row st) = [row].
Proof.
  intros Hid Hout. unfold select_profile. simpl. rewrite filter_app.
  rewrite filter_none.
  - simpl. rewrite filter_cons, decide_True by done. done.
  - intros p Hp Hp'. apply Hout. rewrite <- Hp'. by apply elem_of_map_1.
Qed.

(** X8. After a sign-up, [handleUserSession] for the new principal finds the
    profile the trigger made and inserts nothing: the store is unchanged
    and that profile becomes the current user. *)
Theorem handleUserSession_after_sign_up (d d2 : Defaults) (NEW : AuthUser.t)
    (st st' : Store) (s : UA.State) :
  sign_up d NEW st = inr st' →
  ∃ row, row ∈ profiles st'
    ∧ Profile.id row = AuthUser.id NEW
    ∧ UA.handleUserSession d2 NEW st' s = (st', UA.setUser (Some row) s).
Proof.
  intros (row & -> & Hid & Hout & _)%sign_up_shape.
  exists row. split; [simpl; apply elem_of_app; right; apply list_elem_of_here|].
  split; [done|]. unfold UA.handleUserSession.
  pose proof (select_profile_snoc (AuthUser.id NEW) row
                {| auth_users := auth_users st ++ [NEW]; profiles := profiles st;
                   posts := posts st; likes := likes st; comments := comments st |}
                Hid Hout) as Hsel.
  unfold add_profile in Hsel. simpl in Hsel. by rewrite Hsel.
Qed.

Lemma handleUserSession_after_sign_up_witness :
  ∃ st', sign_up (Scenario.at_ "" 1000) Scenario.bob_auth empty = inr st'
    ∧ List.map Profile.name
        (option_list (UA.user (snd (UA.handleUserSession (Scenario.at_ "" 2000)
                                      Scenario.bob_auth st' Scenario.signed_out))))
      = [lit "bob"]
    ∧ fst (UA.handleUserSession (Scenario.at_ "" 2000) Scenario.bob_auth st'
             Scenario.signed_out) = st'.
Proof.
  eexists. split; [vm_compute; reflexivity|].
  match goal with
  | |- context [UA.handleUserSession _ _ ?st _] =>
      assert (H : sign_up (Scenario.at_ "" 1000) Scenario.bob_auth empty = inr st)
        by (vm_compute; reflexivity)
  end.
  destruct (handleUserSession_after_sign_up _ (Scenario.at_ "" 2000) _ _ _
              Scenario.signed_out H) as (row & _ & _ & Hrun).
  split; [reflexivity|]. rewrite Hrun. reflexivity.
Defined.

Lemma snoc_neq {A : Type} (l : list A) (x : A) : l ++ [x] ≠ l.
Proof.
  intros H. apply (f_equal length) in H. rewrite length_app in H. simpl in H. lia.
Qed.

Lemma handleUserSession_cases (d : Defaults) (authUser : AuthUser.t)
    (db : Store) (s : UA.State) :
  (∃ r, select_profile (AuthUser.id authUser) db = [r]
        ∧ UA.handleUserSession d authUser db s = (db, UA.setUser (Some r) s))
  ∨ (∃ t, ∀ d' s', UA.handleUserSession d' authUser db s' = (db, UA.notify t s'))
  ∨ (∃ row, UA.handleUserSession d authUser db s
            = (add_profile row db, UA.setUser (Some row) s)
            ∧ Profile.id row = AuthUser.id authUser
            ∧ AuthUser.id authUser ∉ List.map Profile.id (profiles db)).
Proof.
  unfold UA.handleUserSession.
  destruct (select_profile (AuthUser.id authUser) db) as [|r [|r' rest]] eqn:Hsel;
    simpl.
  - destruct (insert_profile _ d (UA.newProfile authUser) db) as [e|[row db']] eqn:Hins.
    + right. left. eexists. intros d' s'.
      assert (He : insert_profile (Some (AuthUser.id authUser)) d'
                     (UA.newProfile authUser) db = inl e).
      { revert Hins. unfold insert_profile. destruct (negb _); [done|].
        by destruct (check_profile _ db). }
      by rewrite He.
    + right. right. apply insert_profile_shape in Hins as (-> & Huid & Hout & _).
      assert (Hid : Profile.id row = AuthUser.id authUser) by congruence.
      exists row. rewrite <- Hid. done.
  - left. by exists r.
  - right. left. eexists. intros d' s'.
    unfold insert_profile, owns, check_profile. simpl.
    rewrite bool_decide_eq_true_2 by done. simpl.
    rewrite bool_decide_eq_true_2; [done|].
    assert (Hr : r ∈ select_profile (AuthUser.id authUser) db)
      by (rewrite Hsel; apply list_elem_of_here).
    apply list_elem_of_filter in Hr as [<- Hr]. by apply elem_of_map_1.
Qed.

(** X9. [handleUserSession] is a lookup-or-create that can be repeated: a
    second run never changes the store the first run left, and when the
    first run reported no error the second run resolves the same profile. *)
Theorem handleUserSession_idempotent (d d2 : Defaults) (authUser : AuthUser.t)
    (db : Store) (s s2 : UA.State) :
  fst (UA.handleUserSession d2 authUser (fst (UA.handleUserSession d authUser db s)) s2)
  = fst (UA.handleUserSession d authUser db s)
  ∧ (UA.toasts (snd (UA.handleUserSession d authUser db s)) = UA.toasts s →
     UA.user (snd (UA.handleUserSession d2 authUser
                     (fst (UA.handleUserSession d authUser db s)) s2))
     = UA.user (snd (UA.handleUserSession d authUser db s))).
Proof.
  destruct (handleUserSession_cases d authUser db s)
    as [(r & Hsel & Hrun)|[(t & Hall)|(row & Hrun & Hid & Hout)]].
  - rewrite Hrun. simpl. unfold UA.handleUserSession. by rewrite Hsel.
  - rewrite !Hall. simpl. split; [done|]. intros Ht. by apply snoc_neq in Ht.
  - rewrite Hrun. simpl. unfold UA.handleUserSession.
    by rewrite (select_profile_snoc _ row db Hid Hout).
Qed.

(** ** Likes on the screen *)

Lemma delete_like_absent (uid : option uuid) (P U : uuid) (st : Store) :
  (U, P) ∉ List.map like_key (likes st) → delete_like uid P U st = st.
Proof.
  intros Hout. unfold delete_like. destruct st as [a pr po li co]. simpl in *.
  f_equal. apply filter_all. intros l Hl (HP & HU & _). apply Hout.
  rewrite <- HP, <- HU. by apply (elem_of_map_1 like_key).
Qed.

Lemma delete_like_inserted (d : Defaults) (P U : uuid) (st : Store) :
  (U, P) ∉ List.map like_key (likes st) →
  delete_like (Some U) P U
    {| auth_users := auth_users st; profiles := profiles st; posts := posts st;
       likes := likes st ++ [like_row d P U]; comments := comments st |}
  = st.
Proof.
  intros Hout. unfold delete_like. destruct st as [a pr po li co]. simpl in *.
  f_equal. rewrite filter_app, filter_cons, decide_False by (simpl; tauto).
  rewrite filter_nil, app_nil_r.
  apply filter_all. intros l Hl (HP & HU & _). apply Hout.
  rewrite <- HP, <- HU. by apply (elem_of_map_1 like_key).
Qed.

Lemma handleLike_liked (p : PI.Props) (d : Defaults) (db : Store) (s : PI.State) :
  PI.isLoadingLike s = false →
  PI.isLiked s = false →
  acceptable_like d (PI.postId p) (Client.ProfileView.id (PI.currentUser p)) db →
  PI.handleLike p d db s
  = ({| auth_users := auth_users db; profiles := profiles db; posts := posts db;
        likes := likes db
                 ++ [like_row d (PI.postId p) (Client.ProfileView.id (PI.currentUser p))];
        comments := comments db |},
     PI.setIsLoadingLike false
       (PI.toast (Client.success "Post liked!")
          (PI.setLikeCount (λ prev, prev + 1) (PI.setIsLiked true s)))).
Proof.
  intros Hload Hliked Hacc.
  destruct (insert_like_accepts (PI.session p) d _ _ db eq_refl Hacc) as [st' Hins].
  unfold PI.handleLike. rewrite Hload, Hliked, Hins.
  by apply insert_like_shape in Hins as (-> & _ & _).
Qed.

(** X10. Liking and then unliking brings the likes back: when the first
    click's insert is accepted, a second click leaves the store exactly as
    it was before the first, [isLiked] false again, and the displayed count
    at max(0, n). *)
Theorem handleLike_like_then_unlike (p : PI.Props) (d d2 : Defaults) (db : Store)
    (s : PI.State) :
  PI.isLoadingLike s = false →
  PI.isLiked s = false →
  acceptable_like d (PI.postId p) (Client.ProfileView.id (PI.currentUser p)) db →
  fst (PI.handleLike p d2 (fst (PI.handleLike p d db s)) (snd (PI.handleLike p d db s)))
  = db
  ∧ PI.likeCount (snd (PI.handleLike p d2 (fst (PI.handleLike p d db s))
                         (snd (PI.handleLike p d db s))))
    = Z.max 0 (PI.likeCount s)
  ∧ PI.isLiked (snd (PI.handleLike p d2 (fst (PI.handleLike p d db s))
                       (snd (PI.handleLike p d db s))))
    = false.
Proof.
  intros Hload Hliked Hacc.
  rewrite (handleLike_liked p d db s Hload Hliked Hacc).
  unfold PI.handleLike, PI.session. simpl.
  destruct Hacc as (_ & Hout & _).
  rewrite delete_like_inserted by done.
  split; [done|]. split; [f_equal; lia|done].
Qed.

Lemma handleLike_like_then_unlike_witness :
  acceptable_like (Scenario.at_ "l1" 4000) (lit "p1") (lit "b0b") Scenario.store0
  ∧ fst (PI.handleLike Scenario.bob_on_hello (Scenario.at_ "l2" 4500)
           (fst (PI.handleLike Scenario.bob_on_hello (Scenario.at_ "l1" 4000)
                   Scenario.store0 (Scenario.mounted 3 false)))
           (snd (PI.handleLike Scenario.bob_on_hello (Scenario.at_ "l1" 4000)
                   Scenario.store0 (Scenario.mounted 3 false))))
    = Scenario.store0.
Proof.
  assert (H : acceptable_like (Scenario.at_ "l1" 4000) (lit "p1") (lit "b0b")
                Scenario.store0).
  { vm_compute. repeat split.
    - apply not_elem_of_nil.
    - apply not_elem_of_nil.
    - apply list_elem_of_further, list_elem_of_here.
    - apply list_elem_of_here. }
  split; [exact H|].
  apply (handleLike_like_then_unlike Scenario.bob_on_hello (Scenario.at_ "l1" 4000)
           (Scenario.at_ "l2" 4500) Scenario.store0 (Scenario.mounted 3 false)
           eq_refl eq_refl H).
Defined.

(** X11. Unliking with a stale [isLiked]: when the store holds no Like row
    of the user for the post, [handleLike] with [isLiked] true deletes
    nothing and raises no error, yet announces "Post unliked!" and lowers
    the displayed count to max(0, n - 1), while [like_count] of the post is
    what it was. *)
Theorem handleLike_unlike_absent (p : PI.Props) (d : Defaults) (db : Store)
    (s : PI.State) :
  PI.isLoadingLike s = false →
  PI.isLiked s = true →
  (Client.ProfileView.id (PI.currentUser p), PI.postId p)
    ∉ List.map like_key (likes db) →
  fst (PI.handleLike p d db s) = db
  ∧ PI.likeCount (snd (PI.handleLike p d db s)) = Z.max 0 (PI.likeCount s - 1)
  ∧ PI.toasts (snd (PI.handleLike p d db s))
    = PI.toasts s ++ [Client.success "Post unliked!"]
  ∧ like_count (fst (PI.handleLike p d db s)) (PI.postId p)
    = like_count db (PI.postId p).
Proof.
  intros Hload Hliked Hout. unfold PI.handleLike. rewrite Hload, Hliked. simpl.
  by rewrite delete_like_absent.
Qed.

Lemma handleLike_unlike_absent_witness :
  ((Client.ProfileView.id (PI.currentUser Scenario.bob_on_hello),
    PI.postId Scenario.bob_on_hello) ∉ List.map like_key (likes Scenario.store0))
  ∧ fst (PI.handleLike Scenario.bob_on_hello (Scenario.at_ "" 0) Scenario.store0
           (Scenario.mounted 5 true)) = Scenario.store0
  ∧ PI.likeCount (snd (PI.handleLike Scenario.bob_on_hello (Scenario.at_ "" 0)
                         Scenario.store0 (Scenario.mounted 5 true))) = 4.
Proof.
  assert (H : (Client.ProfileView.id (PI.currentUser Scenario.bob_on_hello),
               PI.postId Scenario.bob_on_hello)
              ∉ List.map like_key (likes Scenario.store0))
    by apply not_elem_of_nil.
  split; [exact H|].
  destruct (handleLike_unlike_absent Scenario.bob_on_hello (Scenario.at_ "" 0)
              Scenario.store0 (Scenario.mounted 5 true) eq_refl eq_refl H)
    as (Hdb & Hn & _).
  split; [exact Hdb|]. rewrite Hn. reflexivity.
Defined.

Lemma select_likes_one (P U : uuid) (st : Store) (l : Like.t) :
  unique_likes st → l ∈ likes st → like_key l = (U, P) →
  ∃ r, select_likes P U st = [r].
Proof.
  intros Hnd Hl Hkey.
  pose proof (select_likes_at_most_one P U st Hnd) as Hle.
  assert (Hsel : l ∈ select_likes P U st).
  { apply select_likes_spec. unfold like_key in Hkey. by inversion Hkey. }
  destruct (select_likes P U st) as [|r [|r' rest]]; simpl in *;
    [by apply elem_of_nil in Hsel|by eexists|lia].
Qed.

(** X12. In a store with unique likes, a re-check after a click agrees with
    the click when the store did what was asked (an unlike, or a like whose
    insert was accepted): [checkIfLiked] then changes nothing. When the
    like was refused because the row is already there, the click leaves
    [isLiked] false and the re-check sets it to true. *)
Theorem checkIfLiked_after_handleLike (p : PI.Props) (d : Defaults) (db : Store)
    (s : PI.State) :
  unique_likes db →
  PI.isLoadingLike s = false →
  (PI.isLiked s = true
   ∨ acceptable_like d (PI.postId p) (Client.ProfileView.id (PI.currentUser p)) db →
   PI.checkIfLiked p (fst (PI.handleLike p d db s)) (snd (PI.handleLike p d db s))
   = snd (PI.handleLike p d db s))
  ∧ (PI.isLiked s = false →
     (Client.ProfileView.id (PI.currentUser p), PI.postId p)
       ∈ List.map like_key (likes db) →
     PI.isLiked (snd (PI.handleLike p d db s)) = false
     ∧ PI.isLiked (PI.checkIfLiked p (fst (PI.handleLike p d db s))
                     (snd (PI.handleLike p d db s))) = true).
Proof.
  intros Hnd Hload. unfold PI.handleLike. rewrite Hload. split.
  - intros Hok. destruct (PI.isLiked s) eqn:Hliked; simpl.
    + unfold PI.checkIfLiked, PI.session.
      destruct (delete_like_own (PI.postId p) (Client.ProfileView.id (PI.currentUser p)) db)
        as [-> _]. done.
    + destruct Hok as [?|Hacc]; [done|].
      destruct (insert_like_accepts (PI.session p) d _ _ db eq_refl Hacc) as [st' Hins].
      rewrite Hins. simpl. unfold PI.checkIfLiked.
      pose proof (insert_like_unique _ _ _ _ _ _ Hnd Hins) as Hnd'.
      apply insert_like_shape in Hins as (Hst' & _ & _).
      destruct (select_likes_one (PI.postId p) (Client.ProfileView.id (PI.currentUser p))
                  st' (like_row d (PI.postId p) (Client.ProfileView.id (PI.currentUser p)))
                  Hnd') as [r ->]; [|done|done].
      rewrite Hst'. simpl. apply elem_of_app. right. apply list_elem_of_here.
  - intros Hliked Hin. rewrite Hliked.
    destruct (insert_like_duplicate (PI.session p) d (PI.postId p)
                (Client.ProfileView.id (PI.currentUser p)) db eq_refl Hin)
      as [[c Hc] _].
    rewrite Hc. simpl. split; [done|].
    apply elem_of_map_inv in Hin as (l & Hl & Hkey).
    unfold PI.checkIfLiked.
    by destruct (select_likes_one _ _ db l Hnd Hl Hkey) as [r ->].
Qed.

Lemma checkIfLiked_after_handleLike_witness :
  unique_likes Scenario.store1
  ∧ PI.isLiked (snd (PI.handleLike Scenario.bob_on_hello (Scenario.at_ "l2" 4500)
                       Scenario.store1 (Scenario.mounted 1 false))) = false
  ∧ PI.isLiked (PI.checkIfLiked Scenario.bob_on_hello
                  (fst (PI.handleLike Scenario.bob_on_hello (Scenario.at_ "l2" 4500)
                          Scenario.store1 (Scenario.mounted 1 false)))
                  (snd (PI.handleLike Scenario.bob_on_hello (Scenario.at_ "l2" 4500)
                          Scenario.store1 (Scenario.mounted 1 false)))) = true.
Proof.
  assert (H1 : unique_likes Scenario.store1).
  { unfold unique_likes. vm_compute. apply NoDup_singleton. }
  split; [exact H1|].
  destruct (checkIfLiked_after_handleLike Scenario.bob_on_hello (Scenario.at_ "l2" 4500)
              Scenario.store1 (Scenario.mounted 1 false) H1 eq_refl) as [_ Hdup].
  apply Hdup; [reflexivity|]. vm_compute. apply list_elem_of_here.
Defined.

(** ** Comments *)

Lemma trimStart_head (s : jsstring) (c : N) :
  head (trimStart s) = Some c → is_white_space c = false.
Proof.
  induction s as [|x s IH]; [done|]. simpl.
  destruct (is_white_space x) eqn:Hx; [done|]. simpl. congruence.
Qed.

Lemma trimStart_suffix (s : jsstring) : ∃ ws, s = ws ++ trimStart s.
Proof.
  induction s as [|x s [ws IH]]; [by exists []|]. simpl.
  destruct (is_white_space x).
  - exists (x :: ws). simpl. by f_equal.
  - by exists [].
Qed.

Lemma trimStart_fixed (s : jsstring) :
  (∀ c, head s = Some c → is_white_space c = false) → trimStart s = s.
Proof.
  destruct s as [|x s]; [done|]. simpl. intros H.
  by rewrite (H x eq_refl).
Qed.

Lemma head_rev_last {A : Type} (l : list A) : head (rev l) = last l.
Proof.
  induction l as [|x l IH] using rev_ind; [done|].
  by rewrite rev_app_distr, last_snoc.
Qed.

Lemma trimEnd_last (s : jsstring) (c : N) :
  last (trimEnd s) = Some c → is_white_space c = false.
Proof.
  unfold trimEnd. rewrite <- head_rev_last, rev_involutive. apply trimStart_head.
Qed.

(** [trimEnd] keeps the first code unit of what it leaves. *)
Lemma trimEnd_head (s : jsstring) (c : N) :
  head (trimEnd s) = Some c → head s = Some c.
Proof.
  unfold trimEnd. destruct (trimStart_suffix (rev s)) as [ws Hws].
  apply (f_equal (@rev N)) in Hws. rewrite rev_involutive, rev_app_distr in Hws.
  rewrite Hws at 2. destruct (rev (trimStart (rev s))); [done|]. done.
Qed.

(** What [trim] leaves neither starts nor ends with white space, and
    trimming it again changes nothing. *)
Lemma trim_ends (s : jsstring) :
  (∀ c, head (trim s) = Some c → is_white_space c = false)
  ∧ (∀ c, last (trim s) = Some c → is_white_space c = false)
  ∧ trim (trim s) = trim s.
Proof.
  assert (Hh : ∀ c, head (trim s) = Some c → is_white_space c = false).
  { intros c Hc. apply trimEnd_head in Hc. by apply trimStart_head in Hc. }
  assert (Hl : ∀ c, last (trim s) = Some c → is_white_space c = false)
    by (intros c; apply trimEnd_last).
  split; [done|]. split; [done|].
  unfold trim at 1. rewrite (trimStart_fixed _ Hh).
  unfold trimEnd. rewrite trimStart_fixed; [apply rev_involutive|].
  intros c. rewrite head_rev_last. apply Hl.
Qed.

Lemma comment_count_snoc (st st' : Store) (row : Comment.t) (P : uuid) :
  comments st' = comments st ++ [row] →
  comment_count st' P
  = comment_count st P + (if decide (Comment.post_id row = P) then 1 else 0).
Proof.
  intros Hc. unfold comment_count. rewrite Hc, filter_app, length_app, filter_cons.
  destruct (decide (Comment.post_id row = P)); simpl; lia.
Qed.

(** X13. [handleComment] does nothing for a comment that is blank after
    trimming or while another one is being sent. Whenever it changes the
    comments table it appends one row, of the current user on this post,
    whose content is the trimmed text: not empty, with no white space at
    either end. Then [comment_count] of the post and the displayed count
    both grow by one, the new comment is shown last and the input is
    cleared. When the table is unchanged so is the displayed count. *)
Theorem handleComment_stores_trimmed (p : PI.Props) (d : Defaults) (db : Store)
    (s : PI.State) :
  (trim (PI.newComment s) = [] ∨ PI.isLoadingComment s = true →
   PI.handleComment p d db s = (db, s))
  ∧ (comments (fst (PI.handleComment p d db s)) ≠ comments db →
     ∃ row,
       comments (fst (PI.handleComment p d db s)) = comments db ++ [row]
       ∧ Comment.content row = trim (PI.newComment s)
       ∧ Comment.content row ≠ []
       ∧ (∀ c, head (Comment.content row) = Some c → is_white_space c = false)
       ∧ (∀ c, last (Comment.content row) = Some c → is_white_space c = false)
       ∧ Comment.post_id row = PI.postId p
       ∧ Comment.user_id row = Client.ProfileView.id (PI.currentUser p)
       ∧ comment_count (fst (PI.handleComment p d db s)) (PI.postId p)
         = comment_count db (PI.postId p) + 1
       ∧ PI.commentCount (snd (PI.handleComment p d db s)) = PI.commentCount s + 1
       ∧ PI.comments (snd (PI.handleComment p d db s))
         = PI.comments s ++ [PI.comment_view (fst (PI.handleComment p d db s)) row]
       ∧ PI.newComment (snd (PI.handleComment p d db s)) = [])
  ∧ (comments (fst (PI.handleComment p d db s)) = comments db →
     PI.commentCount (snd (PI.handleComment p d db s)) = PI.commentCount s).
Proof.
  unfold PI.handleComment.
  destruct (trim_ends (PI.newComment s)) as (Hhead & Hlast & _).
  destruct (trim (PI.newComment s)) as [|c t] eqn:Htrim.
  { split; [done|]. split; done. }
  destruct (PI.isLoadingComment s) eqn:Hload.
  { split; [done|]. split; done. }
  split; [by intros [?|?]|].
  destruct (insert_comment _ d (c :: t) (PI.postId p) _ db) as [e|[row db']] eqn:Hins;
    simpl.
  { split; done. }
  apply insert_comment_shape in Hins as (-> & _ & -> & _). simpl. split.
  - intros _. eexists. split; [reflexivity|]. simpl.
    repeat split; try done.
    erewrite comment_count_snoc by reflexivity. simpl. by rewrite decide_True.
  - intros H. by apply snoc_neq in H.
Qed.

(** X14. The comments dialog lists as many comments as [comment_count] of
    the post says: after [fetchComments], unless a fetch was already
    running, the length of [comments] is the number of Comment rows of the
    post. *)
Theorem fetchComments_count (p : PI.Props) (db : Store) (s : PI.State) :
  PI.isLoadingComments s = false →
  Z.of_nat (length (PI.comments (PI.fetchComments p db s)))
  = comment_count db (PI.postId p).
Proof.
  intros Hload. unfold PI.fetchComments. rewrite Hload. simpl.
  unfold PI.select_comments, comment_count.
  by rewrite length_map, (order_by_created_at_perm Comment.created_at true).
Qed.

Lemma fetchComments_count_witness :
  PI.isLoadingComments (Scenario.mounted 0 false) = false
  ∧ Z.of_nat (length (PI.comments (PI.fetchComments Scenario.bob_on_hello
                                     Scenario.store2 (Scenario.mounted 0 false))))
    = comment_count Scenario.store2 (lit "p1").
Proof.
  split; [reflexivity|].
  apply (fetchComments_count Scenario.bob_on_hello Scenario.store2
           (Scenario.mounted 0 false) eq_refl).
Defined.

(** ** The feed after a change *)

Lemma counts_of_new_post (st : Store) (id : uuid) :
  references_posts st → id ∉ List.map Post.id (posts st) →
  like_count st id = 0 ∧ comment_count st id = 0.
Proof.
  intros [Hl Hc] Hout. unfold like_count, comment_count.
  rewrite !filter_none; [done| |].
  - intros c Hin Heq. apply Hout. rewrite <- Heq. by apply Hc.
  - intros l Hin Heq. apply Hout. rewrite <- Heq. by apply Hl.
Qed.

(** X15. The entry [handleCreatePost] puts on top of the feed without
    asking the database again is the one a refetch shows: in a store whose
    likes and comments reference posts that are there, whenever it inserts
    a post, the new first entry occurs in what [fetchPosts] reads next, with
    its zero counts, and the refetched feed is one longer than the posts
    table was. *)
Theorem handleCreatePost_entry_in_feed (user : option Profile.t) (d : Defaults)
    (db : Store) (s s' : Dash.State) :
  references_posts db →
  posts (fst (Dash.handleCreatePost user d db s)) ≠ posts db →
  ∃ entry,
    Dash.posts (snd (Dash.handleCreatePost user d db s)) = entry :: Dash.posts s
    ∧ Dash.Post.id entry = gen_random_uuid d
    ∧ Dash.Post.like_count entry = 0
    ∧ Dash.Post.comment_count entry = 0
    ∧ entry ∈ Dash.posts (Dash.fetchPosts (fst (Dash.handleCreatePost user d db s)) s')
    ∧ length (Dash.posts (Dash.fetchPosts (fst (Dash.handleCreatePost user d db s)) s'))
      = S (length (posts db)).
Proof.
  intros Href. unfold Dash.handleCreatePost.
  destruct (trim (Dash.newPost s)) as [|c t]; [done|].
  destruct user as [u|]; [|done].
  destruct (insert_post _ d (Dash.newPost s) (Profile.id u) db)
    as [e|[row db']] eqn:Hins; simpl; [done|].
  intros _. apply insert_post_shape in Hins as (-> & _ & -> & Hfresh & _).
  eexists. split; [reflexivity|]. simpl. repeat split.
  - set (row := {| Post.id := gen_random_uuid d; Post.content := Dash.newPost s;
                   Post.user_id := Profile.id u; Post.created_at := NOW d;
                   Post.updated_at := NOW d |}).
    set (db' := {| auth_users := auth_users db; profiles := profiles db;
                   posts := posts db ++ [row]; likes := likes db;
                   comments := comments db |}).
    assert (Hzero : like_count db' (Post.id row) = 0 ∧ comment_count db' (Post.id row) = 0).
    { destruct (counts_of_new_post db (gen_random_uuid d) Href Hfresh). done. }
    destruct Hzero as [Hl0 Hc0].
    apply list_elem_of_In, in_map_iff. exists row. split.
    + by rewrite Hl0, Hc0.
    + apply list_elem_of_In.
      rewrite (order_by_created_at_perm Post.created_at false).
      apply elem_of_app. right. apply list_elem_of_here.
  - rewrite length_map, (order_by_created_at_perm Post.created_at false).
    rewrite length_app. simpl. lia.
Qed.

Lemma handleCreatePost_entry_in_feed_witness :
  references_posts Scenario.store1
  ∧ List.map Dash.Post.id
      (Dash.posts (Dash.fetchPosts
                     (fst (Dash.handleCreatePost (Some Scenario.bob) (Scenario.at_ "p2" 7000)
                             Scenario.store1 (Scenario.typed (lit "Hi"))))
                     (Scenario.typed [])))
    = [lit "p2"; lit "p1"]
  ∧ ∃ entry,
      Dash.posts (snd (Dash.handleCreatePost (Some Scenario.bob) (Scenario.at_ "p2" 7000)
                         Scenario.store1 (Scenario.typed (lit "Hi"))))
      = entry :: Dash.posts (Scenario.typed (lit "Hi"))
      ∧ Dash.Post.id entry = lit "p2".
Proof.
  assert (Href : references_posts Scenario.store1).
  { split.
    - intros l Hl. apply list_elem_of_singleton in Hl. subst l.
      vm_compute. apply list_elem_of_here.
    - intros c Hc. by apply elem_of_nil in Hc. }
  split; [exact Href|]. split; [reflexivity|].
  destruct (handleCreatePost_entry_in_feed (Some Scenario.bob) (Scenario.at_ "p2" 7000)
              Scenario.store1 (Scenario.typed (lit "Hi")) (Scenario.typed []) Href)
    as (entry & Hposts & Hid & _).
  { vm_compute. discriminate. }
  exists entry. split; [exact Hposts|exact Hid].
Defined.

Lemma delete_post_gone (uid : option uuid) (P : uuid) (st : Store) :
  P ∈ List.map Post.id (posts st) →
  (∀ q, q ∈ posts st → Post.id q = P → uid = Some (Post.user_id q)) →
  P ∈ deleted_posts uid P st.
Proof.
  intros (q & Hq & Hid)%elem_of_map_inv Hown. rewrite <- Hid at 1.
  apply (elem_of_map_1 Post.id). apply list_elem_of_filter. split; [|done].
  split; [done|]. by apply Hown.
Qed.

(** X16. Once its owner has deleted a post, the feed no longer lists it and
    its comments dialog loads empty, whoever wrote the comments. *)
Theorem deleted_post_leaves_screen (uid : option uuid) (P : uuid) (st : Store)
    (s : Dash.State) (p : PI.Props) (ps : PI.State) :
  P ∈ List.map Post.id (posts st) →
  (∀ q, q ∈ posts st → Post.id q = P → uid = Some (Post.user_id q)) →
  PI.postId p = P →
  PI.isLoadingComments ps = false →
  (P ∉ List.map Dash.Post.id (Dash.posts (Dash.fetchPosts (delete_post uid P st) s)))
  ∧ PI.comments (PI.fetchComments p (delete_post uid P st) ps) = [].
Proof.
  intros Hin Hown Hp Hload. split.
  - unfold Dash.fetchPosts. cbn [Dash.posts]. rewrite List.map_map. simpl.
    rewrite (Permutation_map Post.id (order_by_created_at_perm Post.created_at false _)).
    by apply (delete_post_by_owner uid P st).
  - unfold PI.fetchComments. rewrite Hload. simpl. unfold PI.select_comments.
    rewrite filter_none; [done|].
    intros c [Hkeep _]%list_elem_of_filter Hc. apply Hkeep.
    rewrite Hc, Hp. by apply delete_post_gone.
Qed.

Lemma deleted_post_leaves_screen_witness :
  lit "p1" ∈ List.map Post.id (posts Scenario.store2)
  ∧ List.map Dash.Post.id
      (Dash.posts (Dash.fetchPosts Scenario.store2 (Scenario.typed []))) = [lit "p1"]
  ∧ (lit "p1" ∉ List.map Dash.Post.id
       (Dash.posts (Dash.fetchPosts
                      (delete_post (Some (lit "a11ce")) (lit "p1") Scenario.store2)
                      (Scenario.typed []))))
  ∧ PI.comments (PI.fetchComments Scenario.bob_on_hello
                   (delete_post (Some (lit "a11ce")) (lit "p1") Scenario.store2)
                   (Scenario.mounted 0 false)) = [].
Proof.
  assert (Hin : lit "p1" ∈ List.map Post.id (posts Scenario.store2))
    by (vm_compute; apply list_elem_of_here).
  assert (Hown : ∀ q, q ∈ posts Scenario.store2 → Post.id q = lit "p1" →
                      Some (lit "a11ce") = Some (Post.user_id q)).
  { intros q Hq _. apply list_elem_of_singleton in Hq. by subst q. }
  split; [exact Hin|]. split; [reflexivity|].
  apply (deleted_post_leaves_screen _ _ _ (Scenario.typed []) Scenario.bob_on_hello
           (Scenario.mounted 0 false) Hin Hown eq_refl eq_refl).
Defined.

(** ** The profile page *)

Module PP := Client.ProfilePage.

Lemma author_joined (st : Store) (user_id : uuid) :
  Spec.joined_with_author st user_id (PP.author <$> find_profile st user_id).
Proof.
  pose proof (find_profile_spec st user_id) as H.
  destruct (find_profile st user_id) as [a|]; simpl; [|done].
  exists a. destruct H. repeat split; done.
Qed.

(** X17. [fetchUserPosts] shows exactly the posts whose owner is the id of
    the page: its entries are, one for one, a rearrangement of those rows,
    each with the id, content, owner and times of its row and the profile of
    that owner, and they are ordered newest first. For an address that is
    not a uuid the query fails and the posts shown stay as they were. Either
    way the loading flag is cleared. *)
Theorem fetchUserPosts_only_author (params_id : option uuid) (db : Store)
    (s : PP.State) :
  (∀ id, params_id = Some id →
     (∃ rows,
        rows ≡ₚ filter (λ p, Post.user_id p = id) (posts db)
        ∧ Forall2 (λ v row, PP.Post.id v = Post.id row
                            ∧ PP.Post.content v = Post.content row
                            ∧ PP.Post.user_id v = id
                            ∧ PP.Post.created_at v = Post.created_at row
                            ∧ PP.Post.updated_at v = Post.updated_at row
                            ∧ Spec.joined_with_author db id (PP.Post.profiles v))
            (PP.posts (PP.fetchUserPosts params_id db s)) rows)
     ∧ StronglySorted (λ a b, PP.Post.created_at b ≤ PP.Post.created_at a)
         (PP.posts (PP.fetchUserPosts params_id db s)))
  ∧ (params_id = None → PP.posts (PP.fetchUserPosts params_id db s) = PP.posts s)
  ∧ PP.isLoadingPosts (PP.fetchUserPosts params_id db s) = false.
Proof.
  split; [|split].
  - intros id ->. unfold PP.fetchUserPosts. cbn [PP.posts]. split.
    + eexists. split; [apply (order_by_created_at_perm Post.created_at false)|].
      apply Forall2_map_diag. intros row Hrow.
      rewrite (order_by_created_at_perm Post.created_at false) in Hrow.
      apply list_elem_of_filter in Hrow as [Hu Hrow]. simpl.
      repeat split; [done|]. rewrite <- Hu. apply author_joined.
    + apply StronglySorted_map. simpl. apply order_by_descending.
  - by intros ->.
  - by destruct params_id.
Qed.

Lemma select_profile_unique (id : uuid) (st : Store) (pr : Profile.t) :
  NoDup (List.map Profile.id (profiles st)) →
  pr ∈ profiles st → Profile.id pr = id → select_profile id st = [pr].
Proof.
  unfold select_profile. intros Hnd Hin Hid.
  induction (profiles st) as [|x l IH]; [by apply elem_of_nil in Hin|].
  simpl in Hnd. apply NoDup_cons in Hnd as [Hx Hnd]. rewrite filter_cons.
  apply elem_of_cons in Hin as [->|Hin].
  - rewrite decide_True by done. f_equal. apply filter_none.
    intros y Hy Hy'. apply Hx. rewrite Hid, <- Hy'. by apply elem_of_map_1.
  - rewrite decide_False; [by apply IH|].
    intros Hx'. apply Hx. rewrite Hx', <- Hid. by apply elem_of_map_1.
Qed.

(** X18. With unique profile ids, [fetchUserProfile] shows the profile of
    the id of the page when there is one; when there is none it leaves
    [user] as it was ([null] on a fresh page: "User not found"). Either way
    the loading flag is cleared. *)
Theorem fetchUserProfile_found (id : uuid) (db : Store) (s : PP.State) :
  NoDup (List.map Profile.id (profiles db)) →
  (∀ pr, pr ∈ profiles db → Profile.id pr = id →
         PP.user (PP.fetchUserProfile id db s) = Some pr)
  ∧ (id ∉ List.map Profile.id (profiles db) →
     PP.user (PP.fetchUserProfile id db s) = PP.user s)
  ∧ PP.isLoading (PP.fetchUserProfile id db s) = false.
Proof.
  intros Hnd. unfold PP.fetchUserProfile. split; [|split].
  - intros pr Hin Hid. by rewrite (select_profile_unique id db pr Hnd Hin Hid).
  - intros Hout. pose proof (find_profile_spec db id) as Hfind.
    unfold find_profile in Hfind.
    destruct (select_profile id db) as [|a rest]; simpl in *; [done|].
    destruct Hfind as [Ha <-]. destruct Hout. by apply elem_of_map_1.
  - by destruct (single (select_profile id db)).
Qed.

Lemma fetchUserProfile_found_witness :
  NoDup (List.map Profile.id (profiles Scenario.store0))
  ∧ PP.user (PP.fetchUserProfile (lit "b0b") Scenario.store0
               {| PP.user := None; PP.posts := []; PP.currentUser := None;
                  PP.isLoading := true; PP.isLoadingPosts := true;
                  PP.redirected := false |}) = Some Scenario.bob.
Proof.
  assert (Hnd : NoDup (List.map Profile.id (profiles Scenario.store0))).
  { vm_compute. apply NoDup_cons. split.
    - intros H. apply list_elem_of_singleton in H. discriminate H.
    - apply NoDup_singleton. }
  split; [exact Hnd|].
  destruct (fetchUserProfile_found (lit "b0b") Scenario.store0
              {| PP.user := None; PP.posts := []; PP.currentUser := None;
                 PP.isLoading := true; PP.isLoadingPosts := true;
                 PP.redirected := false |} Hnd) as [Hfound _].
  apply Hfound; [|reflexivity].
  apply list_elem_of_further, list_elem_of_here.
Defined.

(** ** The REST server, further *)

Section ServerMore.
Import Server.
Variable bcrypt_hash : jsstring → jsstring → jsstring.
Variable bcrypt_compare : jsstring → jsstring → bool.
Variable jwt_sign : Z → jsval → jsstring.
Variable jwt_verify : jsstring → option jsval.
Variable Date_value : jsstring → Z.






(** X20. A login is answered 200 only for the right password of the first
    user with the email of the request: both are strings bcrypt accepts
    against each other. No other answer carries a token. *)
Theorem login_requires_credentials (e : Env) (req : LoginBody.t) (st : State) :
  (status (login bcrypt_compare jwt_sign e req st) = 200 →
   ∃ user password hash,
     find_by_email st (LoginBody.email req) = Some user
     ∧ user ∈ users st
     ∧ get user "email" = LoginBody.email req
     ∧ LoginBody.password req = JString password
     ∧ get user "password" = JString hash
     ∧ bcrypt_compare password hash = true)
  ∧ (status (login bcrypt_compare jwt_sign e req st) ≠ 200 →
     issued_token (body (login bcrypt_compare jwt_sign e req st)) = None).
Proof.
  unfold login.
  destruct (find_by_email st (LoginBody.email req)) as [user|] eqn:Hfind;
    [|by split].
  pose proof (find_by_email_Some _ _ _ Hfind) as [Hin Hemail].
  destruct (LoginBody.password req) as [|pw]; [by split|].
  destruct (get user "password") as [|h] eqn:Hh; [by split|].
  destruct (bcrypt_compare pw h) eqn:Hc; simpl; [|by split].
  split; [|done]. intros _. by exists user, pw, h.
Qed.


Lemma getUserById_users (users1 : list object) (posts1 posts2 : list Post.t) (id : jsval) :
  getUserById {| users := users1; posts := posts1 |} id
  = getUserById {| users := users1; posts := posts2 |} id.
Proof. done. Qed.

(** X22. An authenticated [POST /api/posts] always stores the post, with
    any content and with the id of the token as author, before it looks
    the author up. When a user has that id the answer is 201; when none
    has, the answer is 500 and the post is stored all the same. No later
    registration or post removes a stored post, and every authenticated
    [GET /api/posts] on a store that holds such a post is answered 500 for
    as long as no user has its author's id. *)
Theorem create_post_always_stores (e : Env) (authorization : option jsstring)
    (content userId : jsval) (st : State) :
  authenticateToken jwt_verify authorization = inr userId →
  fst (create_post jwt_verify e authorization content st)
  = {| users := users st; posts := posts st ++ [new_post e content userId] |}
  ∧ (is_Some (getUserById st userId) →
     status (snd (create_post jwt_verify e authorization content st)) = 201)
  ∧ (getUserById st userId = None →
     snd (create_post jwt_verify e authorization content st) = server_error)
  ∧ (∀ post st1 e1 req authorization1 content1,
       post ∈ posts st1 →
       post ∈ posts (fst (register bcrypt_hash jwt_sign e1 req st1))
       ∧ post ∈ posts (fst (create_post jwt_verify e1 authorization1 content1 st1)))
  ∧ (∀ st2 authorization2 userId2,
       new_post e content userId ∈ posts st2 →
       getUserById st2 userId = None →
       authenticateToken jwt_verify authorization2 = inr userId2 →
       get_posts jwt_verify Date_value authorization2 st2 = server_error).
Proof.
  intros Hauth. split; [|split; [|split; [|split]]].
  - unfold create_post. rewrite Hauth. fold (new_post e content userId).
    by destruct (with_author _ _).
  - intros [author Hget]. unfold create_post. rewrite Hauth.
    unfold with_author. simpl.
    rewrite <- (getUserById_users (users st) (posts st)).
    assert (Hst : {| users := users st; posts := posts st |} = st) by (by destruct st).
    by rewrite Hst, Hget.
  - intros Hget. unfold create_post. rewrite Hauth.
    unfold with_author. simpl.
    rewrite <- (getUserById_users (users st) (posts st)).
    assert (Hst : {| users := users st; posts := posts st |} = st) by (by destruct st).
    by rewrite Hst, Hget.
  - intros post st1 e1 req authorization1 content1 Hin. split.
    + unfold register. destruct (find_by_email st1 _); [done|].
      by destruct (RegisterBody.password req).
    + unfold create_post.
      destruct (authenticateToken jwt_verify authorization1); [done|].
      assert (Hgrow : post ∈ posts st1 ++ [{| Post.id := uuidv4 e1;
                                               Post.content := content1;
                                               Post.authorId := j;
                                               Post.createdAt := now e1 |}])
        by (apply elem_of_app; by left).
      by destruct (with_author _ _).
  - intros st2 authorization2 userId2 Hin Hget Hauth2.
    unfold get_posts. rewrite Hauth2. unfold getPostsWithAuthors.
    rewrite (mapM_None_2 (with_author st2)); [done|].
    apply Exists_exists. exists (new_post e content userId). split; [done|].
    unfold with_author. simpl. by rewrite Hget.
Qed.

Lemma with_author_joined (st : State) (post : Post.t) (view : PostWithAuthor.t) :
  with_author st post = Some view →
  PostWithAuthor.post view = post
  ∧ Author.id (PostWithAuthor.author view) = Post.authorId post.
Proof.
  unfold with_author.
  destruct (getUserById st (Post.authorId post)) as [author|] eqn:Hget; [|done].
  simpl. intros [= <-]. simpl. split; [done|].
  by apply getUserById_Some in Hget as [_ ?].
Qed.

Lemma getPostsWithAuthors_joined (st : State) (postList : list Post.t)
    (result : list PostWithAuthor.t) :
  getPostsWithAuthors Date_value st postList = Some result →
  Forall (λ view, PostWithAuthor.post view ∈ postList
                  ∧ Author.id (PostWithAuthor.author view)
                    = Post.authorId (PostWithAuthor.post view)) result.
Proof.
  unfold getPostsWithAuthors.
  destruct (mapM (with_author st) postList) as [joined|] eqn:Hj; [|done].
  simpl. intros [= <-]. apply mapM_Some in Hj.
  apply Forall_forall. intros view Hview. rewrite sort_by_perm in Hview.
  apply list_elem_of_lookup in Hview as [i Hi].
  destruct (Forall2_lookup_r _ _ _ _ _ Hj Hi) as (post & Hpost & Hw).
  apply with_author_joined in Hw as [-> Hid]. split; [|done].
  apply list_elem_of_lookup. eauto.
Qed.

(** X23. An authenticated [GET /api/posts] answers 500 as soon as one post
    has no user as its author; otherwise it answers 200 with exactly the
    posts of the store, newest first, each one with an author whose id is
    the post's [authorId]. *)
Theorem get_posts_feed (authorization : option jsstring) (userId : jsval) (st : State) :
  authenticateToken jwt_verify authorization = inr userId →
  (Exists (λ post, getUserById st (Post.authorId post) = None) (posts st) →
   get_posts jwt_verify Date_value authorization st = server_error)
  ∧ (Forall (λ post, is_Some (getUserById st (Post.authorId post))) (posts st) →
     ∃ result,
       get_posts jwt_verify Date_value authorization st = json 200 (Posts result)
       ∧ List.map PostWithAuthor.post result ≡ₚ posts st
       ∧ StronglySorted
           (λ a b, Date_value (Post.createdAt (PostWithAuthor.post b))
                   ≤ Date_value (Post.createdAt (PostWithAuthor.post a))) result
       ∧ Forall (λ view, Author.id (PostWithAuthor.author view)
                         = Post.authorId (PostWithAuthor.post view)) result).
Proof.
  intros Hauth. unfold get_posts. rewrite Hauth. split.
  - intros Hex. unfold getPostsWithAuthors.
    rewrite (mapM_None_2 (with_author st)); [done|].
    eapply Exists_impl; [exact Hex|]. intros post Hnone.
    unfold with_author. by rewrite Hnone.
  - intros Hall.
    destruct (getPostsWithAuthors Date_value st (posts st)) as [result|] eqn:Hres.
    + exists result. split; [done|].
      destruct (getPostsWithAuthors_newest_first _ _ _ _ Hres) as [Hperm Hsorted].
      split; [done|]. split; [done|].
      eapply Forall_impl; [apply (getPostsWithAuthors_joined _ _ _ Hres)|].
      by intros view [_ ?].
    + exfalso. unfold getPostsWithAuthors in Hres.
      destruct (mapM (with_author st) (posts st)) eqn:Hj; [done|].
      apply mapM_None_1, Exists_exists in Hj as (post & Hin & Hnone).
      rewrite Forall_forall in Hall. destruct (Hall post Hin) as [u Hu].
      unfold with_author in Hnone. by rewrite Hu in Hnone.
Qed.

(** X24. An authenticated [GET /api/users/:id/posts] that answers 200 lists
    exactly the posts whose [authorId] is the id of the address, newest
    first; for an id nobody has posted under, a user or not, the answer is
    200 with an empty list. *)
Theorem get_user_posts_only_author (authorization : option jsstring) (userId : jsval)
    (id : jsstring) (st : State) :
  authenticateToken jwt_verify authorization = inr userId →
  (∀ result,
     get_user_posts jwt_verify Date_value authorization id st = json 200 (Posts result) →
     List.map PostWithAuthor.post result
       ≡ₚ filter (λ post, Post.authorId post = JString id) (posts st)
     ∧ StronglySorted
         (λ a b, Date_value (Post.createdAt (PostWithAuthor.post b))
                 ≤ Date_value (Post.createdAt (PostWithAuthor.post a))) result
     ∧ Forall (λ view, Post.authorId (PostWithAuthor.post view) = JString id
                       ∧ Author.id (PostWithAuthor.author view) = JString id) result)
  ∧ (JString id ∉ List.map Post.authorId (posts st) →
     get_user_posts jwt_verify Date_value authorization id st = json 200 (Posts [])).
Proof.
  intros Hauth. unfold get_user_posts. rewrite Hauth. split.
  - intros result.
    destruct (getPostsWithAuthors Date_value st _) as [found|] eqn:Hres; [|done].
    intros [= <-].
    destruct (getPostsWithAuthors_newest_first _ _ _ _ Hres) as [Hperm Hsorted].
    split; [done|]. split; [done|].
    eapply Forall_impl; [apply (getPostsWithAuthors_joined _ _ _ Hres)|].
    intros view [[Hauthor _]%list_elem_of_filter Hid]. split; congruence.
  - intros Hout. rewrite filter_none; [done|].
    intros post Hin Heq. apply Hout. rewrite <- Heq. by apply elem_of_map_1.
Qed.

Lemma split_scheme (scheme rest : jsstring) :
  32%N ∉ scheme → split 32 (scheme ++ 32%N :: rest) = scheme :: split 32 rest.
Proof.
  induction scheme as [|c w IH]; intros Hout; simpl.
  - done.
  - apply not_elem_of_cons in Hout as [Hc Hw].
    destruct (N.eqb_spec c 32) as [->|_]; [done|]. by rewrite IH.
Qed.

Lemma split_no_separator (s : jsstring) : 32%N ∉ s → split 32 s = [s].
Proof.
  induction s as [|c w IH]; intros Hout; simpl; [done|].
  apply not_elem_of_cons in Hout as [Hc Hw].
  destruct (N.eqb_spec c 32) as [->|_]; [done|]. by rewrite IH.
Qed.

(** X25. [authenticateToken] reads only the second word of the
    Authorization header. A missing header, an empty one and a header
    without a space are answered 401. The first word is never looked at:
    two headers with the same rest after the first space are treated
    alike, whatever scheme they name. *)
Theorem authenticateToken_second_word (scheme1 scheme2 rest : jsstring) :
  authenticateToken jwt_verify None = inl (json 401 (Message "Access token required"))
  ∧ (∀ header, 32%N ∉ header →
       authenticateToken jwt_verify (Some header)
       = inl (json 401 (Message "Access token required")))
  ∧ (scheme1 ≠ [] → scheme2 ≠ [] → 32%N ∉ scheme1 → 32%N ∉ scheme2 →
     authenticateToken jwt_verify (Some (scheme1 ++ 32%N :: rest))
     = authenticateToken jwt_verify (Some (scheme2 ++ 32%N :: rest))).
Proof.
  split; [done|]. split.
  - intros header Hout. unfold authenticateToken.
    destruct header as [|c h]; [done|]. by rewrite split_no_separator.
  - intros H1 H2 Ho1 Ho2. unfold authenticateToken.
    destruct scheme1 as [|c1 w1]; [done|]. destruct scheme2 as [|c2 w2]; [done|].
    rewrite <- !app_comm_cons.
    rewrite (app_comm_cons w1), (app_comm_cons w2).
    by rewrite !split_scheme.
Qed.
End ServerMore.




(** A token of a user the server no longer knows: the post is stored, and
    the feed is broken, also after somebody else has registered. *)
Lemma create_post_always_stores_witness :
  Server.authenticateToken Scenario.verify (Some (lit "Bearer token-7"))
  = inr (Server.JString (lit "7"))
  ∧ fst (Server.create_post Scenario.verify Scenario.env0
           (Some (lit "Bearer token-7")) (Server.JString (lit "Hi"))
           Scenario.server0)
    = Scenario.server_orphan
  ∧ Server.status
      (snd (Server.create_post Scenario.verify Scenario.env0
              (Some (lit "Bearer token-7")) (Server.JString (lit "Hi"))
              Scenario.server0)) = 500
  ∧ Server.get_posts Scenario.verify Scenario.clock (Some (lit "Bearer token-1"))
      (fst (Server.register Scenario.hash Scenario.sign Scenario.env1
              {| Server.RegisterBody.name := Server.JString (lit "Bob");
                 Server.RegisterBody.email := Server.JString (lit "bob@example.com");
                 Server.RegisterBody.password := Server.JString (lit "hunter2");
                 Server.RegisterBody.bio := Server.undefined |}
              Scenario.server_orphan))
    = Server.server_error.
Proof.
  assert (H : Server.authenticateToken Scenario.verify (Some (lit "Bearer token-7"))
              = inr (Server.JString (lit "7"))) by (vm_compute; reflexivity).
  split; [exact H|].
  destruct (create_post_always_stores Scenario.hash Scenario.sign Scenario.verify
              Scenario.clock Scenario.env0
              (Some (lit "Bearer token-7")) (Server.JString (lit "Hi"))
              (Server.JString (lit "7")) Scenario.server0 H)
    as (Hst & _ & Horphan & _ & Hfeed).
  split; [rewrite Hst; reflexivity|].
  split; [rewrite Horphan; [reflexivity|vm_compute; reflexivity]|].
  apply (Hfeed _ (Some (lit "Bearer token-1")) (Server.JString (lit "1"))).
  - vm_compute. apply list_elem_of_further, list_elem_of_here.
  - vm_compute. reflexivity.
  - vm_compute. reflexivity.
Defined.

Lemma get_posts_feed_witness :
  Server.authenticateToken Scenario.verify (Some (lit "Bearer token-1"))
  = inr (Server.JString (lit "1"))
  ∧ ∃ result,
      Server.get_posts Scenario.verify Scenario.clock (Some (lit "Bearer token-1"))
        Scenario.server0 = Server.json 200 (Server.Posts result)
      ∧ List.map Server.PostWithAuthor.post result ≡ₚ Server.posts Scenario.server0.
Proof.
  assert (H : Server.authenticateToken Scenario.verify (Some (lit "Bearer token-1"))
              = inr (Server.JString (lit "1"))) by (vm_compute; reflexivity).
  split; [exact H|].
  destruct (get_posts_feed Scenario.verify Scenario.clock (Some (lit "Bearer token-1"))
              (Server.JString (lit "1")) Scenario.server0 H) as [_ Hok].
  destruct Hok as (result & Hres & Hperm & _).
  - apply Forall_cons. split; [|apply Forall_nil_2].
    exists Scenario.demo_user. vm_compute. reflexivity.
  - exists result. split; [exact Hres|exact Hperm].
Defined.

Lemma get_user_posts_only_author_witness :
  Server.authenticateToken Scenario.verify (Some (lit "Bearer token-1"))
  = inr (Server.JString (lit "1"))
  ∧ Server.get_user_posts Scenario.verify Scenario.clock (Some (lit "Bearer token-1"))
      (lit "nobody") Scenario.server0
    = Server.json 200 (Server.Posts []).
Proof.
  assert (H : Server.authenticateToken Scenario.verify (Some (lit "Bearer token-1"))
              = inr (Server.JString (lit "1"))) by (vm_compute; reflexivity).
  split; [exact H|].
  destruct (get_user_posts_only_author Scenario.verify Scenario.clock
              (Some (lit "Bearer token-1")) (Server.JString (lit "1")) (lit "nobody")
              Scenario.server0 H) as [_ Hnone].
  apply Hnone. vm_compute. intros Hin.
  apply list_elem_of_singleton in Hin. discriminate Hin.
Defined.

(** ** The two ways to a profile, and a refused post *)

(** X26. The trigger and the client make the same profile row: for a
    principal with an email address, unless the sign-up name is the empty
    string or, without a name, the email starts with '@', the row
    [handle_new_user] inserts at sign-up is the row [handleUserSession]
    would insert from [newProfile]. *)
Theorem trigger_agrees_with_client (d : Defaults) (NEW : AuthUser.t) (e : jsstring)
    (st : Store) :
  AuthUser.email NEW = Some e →
  meta_name NEW ≠ Some [] →
  (meta_name NEW = None → Spec.local_part e ≠ []) →
  AuthUser.id NEW ∉ List.map Profile.id (profiles st) →
  sign_up d NEW st
  = inr {| auth_users := auth_users st ++ [NEW];
           profiles := profiles st ++ [profile_row d (UA.newProfile NEW)];
           posts := posts st; likes := likes st; comments := comments st |}.
Proof.
  intros He Hname Hlocal Hout.
  assert (Hrow : UA.newProfile NEW
                 = {| new_id := AuthUser.id NEW;
                      new_name := default (Spec.local_part e) (meta_name NEW);
                      new_email := e;
                      new_bio := default [] (meta_bio NEW) |}).
  { unfold UA.newProfile. f_equal.
    - rewrite newProfile_name, He. unfold Spec.default_name.
      destruct (meta_name NEW) as [[|c n]|]; simpl; [done|done|].
      destruct (Spec.local_part e); [by destruct Hlocal|done].
    - rewrite He. by destruct e.
    - etrans; [exact (newProfile_bio NEW)|]. by destruct (meta_bio NEW). }
  rewrite Hrow.
  unfold sign_up, handle_new_user, trigger_insert, check_profile.
  rewrite He. simpl. rewrite split_head_local_part.
  assert (Hn : COALESCE (meta_name NEW) (Some (Spec.local_part e))
               = Some (default (Spec.local_part e) (meta_name NEW)))
    by (by destruct (meta_name NEW)).
  rewrite Hn. rewrite bool_decide_eq_false_2 by done.
  rewrite bool_decide_eq_true_2.
  - simpl. by destruct (meta_bio NEW).
  - simpl. rewrite map_app. apply elem_of_app. right. apply list_elem_of_here.
Qed.

Lemma trigger_agrees_with_client_witness :
  AuthUser.email Scenario.bob_auth = Some (lit "bob@example.com")
  ∧ List.map Profile.name
      (profiles
         (default empty
            (match sign_up (Scenario.at_ "" 2000) Scenario.bob_auth empty with
             | inr st => Some st
             | inl _ => None
             end)))
    = [new_name (UA.newProfile Scenario.bob_auth)].
Proof.
  split; [reflexivity|].
  rewrite (trigger_agrees_with_client (Scenario.at_ "" 2000) Scenario.bob_auth
             (lit "bob@example.com") empty eq_refl).
  - reflexivity.
  - discriminate.
  - intros _. vm_compute. discriminate.
  - apply not_elem_of_nil.
Defined.

(** X27. A post of a user whose profile is gone is refused and the draft is
    kept: with text that is not blank, a fresh id and no profile with the
    user's id, [handleCreatePost] leaves the store and the feed as they
    were, keeps the text in the box and the dialog open, and shows the
    foreign-key error. *)
Theorem handleCreatePost_refused (u : Profile.t) (d : Defaults) (db : Store)
    (s : Dash.State) :
  trim (Dash.newPost s) ≠ [] →
  gen_random_uuid d ∉ List.map Post.id (posts db) →
  Profile.id u ∉ List.map Profile.id (profiles db) →
  fst (Dash.handleCreatePost (Some u) d db s) = db
  ∧ Dash.posts (snd (Dash.handleCreatePost (Some u) d db s)) = Dash.posts s
  ∧ Dash.newPost (snd (Dash.handleCreatePost (Some u) d db s)) = Dash.newPost s
  ∧ Dash.showCreatePost (snd (Dash.handleCreatePost (Some u) d db s))
    = Dash.showCreatePost s
  ∧ Dash.toasts (snd (Dash.handleCreatePost (Some u) d db s))
    = Dash.toasts s
      ++ [Client.failure
            (Client.ErrorMessage (foreign_key_violation "posts_user_id_fkey"))].
Proof.
  intros Htrim Hid Hprofile. unfold Dash.handleCreatePost.
  destruct (trim (Dash.newPost s)) as [|c t]; [done|].
  unfold insert_post, owns.
  rewrite bool_decide_eq_true_2 by done. simpl.
  rewrite bool_decide_eq_false_2 by done.
  rewrite bool_decide_eq_false_2 by done. done.
Qed.

Lemma handleCreatePost_refused_witness :
  trim (lit " Hi ") ≠ []
  ∧ fst (Dash.handleCreatePost (Some Scenario.alice) (Scenario.at_ "p2" 7000)
           (delete_auth_user (lit "a11ce") Scenario.store2)
           (Scenario.typed (lit " Hi ")))
    = delete_auth_user (lit "a11ce") Scenario.store2
  ∧ Dash.newPost
      (snd (Dash.handleCreatePost (Some Scenario.alice) (Scenario.at_ "p2" 7000)
              (delete_auth_user (lit "a11ce") Scenario.store2)
              (Scenario.typed (lit " Hi "))))
    = lit " Hi ".
Proof.
  assert (H : trim (Dash.newPost (Scenario.typed (lit " Hi "))) ≠ [])
    by (vm_compute; discriminate).
  split; [exact H|].
  destruct (handleCreatePost_refused Scenario.alice (Scenario.at_ "p2" 7000)
              (delete_auth_user (lit "a11ce") Scenario.store2)
              (Scenario.typed (lit " Hi ")) H) as (Hdb & _ & Hdraft & _).
  - vm_compute. apply not_elem_of_nil.
  - vm_compute. intros Hin. apply list_elem_of_singleton in Hin. discriminate Hin.
  - split; [exact Hdb|exact Hdraft].
Defined.

(** ** Listing the posts, on both back ends *)

Lemma getPostsWithAuthors_users (Date_value : jsstring → Z) (st : Server.State)
    (postList : list Server.Post.t) (result : list Server.PostWithAuthor.t) :
  Server.getPostsWithAuthors Date_value st postList = Some result →
  Forall (Spec.joined_with_user st) result.
Proof.
  unfold Server.getPostsWithAuthors.
  destruct (mapM (Server.with_author st) postList) as [joined|] eqn:Hj; [|done].
  simpl. intros [= <-]. apply mapM_Some in Hj.
  apply Forall_forall. intros view Hview. rewrite sort_by_perm in Hview.
  apply list_elem_of_lookup in Hview as [i Hi].
  destruct (Forall2_lookup_r _ _ _ _ _ Hj Hi) as (post & _ & Hw).
  unfold Server.with_author in Hw.
  destruct (Server.getUserById st (Server.Post.authorId post)) as [user|] eqn:Hget;
    [|done].
  simpl in Hw. injection Hw as <-. exists user. simpl. done.
Qed.

Lemma getPostsWithAuthors_returns (Date_value : jsstring → Z) (st : Server.State)
    (postList : list Server.Post.t) :
  Forall (λ post, is_Some (Server.getUserById st (Server.Post.authorId post))) postList →
  is_Some (Server.getPostsWithAuthors Date_value st postList).
Proof.
  intros Hall. unfold Server.getPostsWithAuthors.
  destruct (mapM (Server.with_author st) postList) as [joined|] eqn:Hj; [by eexists|].
  apply mapM_None_1, Exists_exists in Hj as (post & Hin & Hnone).
  rewrite Forall_forall in Hall. destruct (Hall post Hin) as [u Hu].
  unfold Server.with_author in Hnone. by rewrite Hu in Hnone.
Qed.

(** The list of the REST server is not the claim's: after a post under a
    token whose user the server does not know, the store holds two posts
    and [GET /api/posts] answers 500 and lists none; and what it lists
    otherwise is the post and its author, with no [like_count] and no
    [comment_count]. *)
Lemma listPosts_server_counterexample :
  fst (Server.create_post Scenario.verify Scenario.env0 (Some (lit "Bearer token-7"))
         (Server.JString (lit "Hi")) Scenario.server0)
  = Scenario.server_orphan
  ∧ length (Server.posts Scenario.server_orphan) = 2%nat
  ∧ Server.getPostsWithAuthors Scenario.clock Scenario.server_orphan
      (Server.posts Scenario.server_orphan) = None
  ∧ Server.get_posts Scenario.verify Scenario.clock (Some (lit "Bearer token-1"))
      Scenario.server_orphan
    = Server.json 500 (Server.Message "Server error")
  ∧ Server.body_posts
      (Server.body (Server.get_posts Scenario.verify Scenario.clock
                      (Some (lit "Bearer token-1")) Scenario.server_orphan)) = []
  ∧ Server.get_posts Scenario.verify Scenario.clock (Some (lit "Bearer token-1"))
      Scenario.server0
    = Server.json 200
        (Server.Posts
           [ {| Server.PostWithAuthor.post := Scenario.demo_post;
                Server.PostWithAuthor.author :=
                  {| Server.Author.id := Server.JString (lit "1");
                     Server.Author.name := Server.JString (lit "Demo User");
                     Server.Author.email := Server.JString (lit "demo@example.com");
                     Server.Author.bio :=
                       Server.JString (lit "Full Stack Developer passionate about creating amazing user experiences.") |} |} ]).
Proof. vm_compute. repeat split. Qed.

(** C6, amended. On the database, [fetchPosts] returns all posts, newest
    first: its entries are, one for one, a rearrangement of the rows of the
    posts table, each with the id, content and creation time of its row,
    the profile of the row's author, and the numbers of Like and Comment
    rows that reference the row. On the REST server,
    [getPostsWithAuthors] returns a list whenever every post's author is a
    user, and a list it returns holds exactly the posts it was given,
    newest first, each with the id, name, email and bio of its author;
    there are no counts in it. *)
Theorem listPosts_newest_first (db : Store) (s : Dash.State)
    (Date_value : jsstring → Z) (st : Server.State) :
  ((∃ rows,
      rows ≡ₚ posts db
      ∧ Forall2 (λ v row, Dash.Post.id v = Post.id row
                          ∧ Dash.Post.content v = Post.content row
                          ∧ Dash.Post.created_at v = Post.created_at row
                          ∧ Spec.joined_with db (Post.user_id row) (Dash.Post.profiles v)
                          ∧ Dash.Post.like_count v
                            = Z.of_nat (length (filter (λ l, Like.post_id l = Post.id row)
                                                  (likes db)))
                          ∧ Dash.Post.comment_count v
                            = Z.of_nat (length (filter (λ c, Comment.post_id c = Post.id row)
                                                  (comments db))))
          (Dash.posts (Dash.fetchPosts db s)) rows)
   ∧ StronglySorted (λ a b, Dash.Post.created_at b ≤ Dash.Post.created_at a)
       (Dash.posts (Dash.fetchPosts db s)))
  ∧ (Forall (λ post, is_Some (Server.getUserById st (Server.Post.authorId post)))
       (Server.posts st) →
     is_Some (Server.getPostsWithAuthors Date_value st (Server.posts st)))
  ∧ (∀ result,
       Server.getPostsWithAuthors Date_value st (Server.posts st) = Some result →
       List.map Server.PostWithAuthor.post result ≡ₚ Server.posts st
       ∧ StronglySorted
           (λ a b, Date_value (Server.Post.createdAt (Server.PostWithAuthor.post b))
                   ≤ Date_value (Server.Post.createdAt (Server.PostWithAuthor.post a)))
           result
       ∧ Forall (Spec.joined_with_user st) result).
Proof.
  split; [|split].
  - unfold Dash.fetchPosts. cbn [Dash.posts]. split.
    + eexists. split; [apply (order_by_created_at_perm Post.created_at false)|].
      apply Forall2_map_diag. intros row _.
      rewrite !count_or_zero_Some. simpl. repeat split.
      apply embed_profile_joined.
    + apply StronglySorted_map. simpl. apply order_by_descending.
  - apply getPostsWithAuthors_returns.
  - intros result Hres.
    destruct (getPostsWithAuthors_newest_first _ _ _ _ Hres) as [Hperm Hsorted].
    split; [done|]. split; [done|].
    by apply (getPostsWithAuthors_users Date_value st (Server.posts st)).
Qed.
